(** * buildEndpointOption: request normalisation and builder dispatch

    A shallow embedding of [api/server/middleware/buildEndpointOption.js]
    (LibreChat).  The middleware parses the request body into a compact
    conversation, optionally enforces the administrator's model specs,
    dispatches on the endpoint to a per-provider option builder and
    stores the enriched result on [req.body.endpointOption].

    JavaScript objects used as dictionaries are finite maps from property
    names to values; the mutable request body and the calls made to the
    collaborators are threaded through a small state-and-exception monad
    that also records a trace of the observable effects. *)

From Stdlib Require Import QArith.
From stdpp Require Import base option list strings gmap fin_maps.

Close Scope Q_scope.

(** ** JavaScript values *)

(** The handle of a pending asynchronous computation (a Promise). *)
Inductive Promise : Type :=
  | PromiseId (id : positive).

(** Values that occur in the request body, in the catalog and on the
    option object: JSON values, [undefined], and promise handles.
    Numbers are the rationals denoted by finite doubles. *)
#[warnings="-register-all"]
Inductive JSValue : Type :=
  | JUndefined
  | JNull
  | JBool (b : bool)
  | JNum (x : Q)
  | JStr (s : string)
  | JArr (items : list JSValue)
  | JObj (fields : gmap string JSValue)
  | JPromise (p : Promise).

(** A plain object: own enumerable properties only. *)
Abbreviation JSObject := (gmap string JSValue).

(** [o.k] on a plain object: a missing property reads as [undefined]. *)
Definition get (o : JSObject) (k : string) : JSValue :=
  default JUndefined (o !! k).

(** ECMAScript ToBoolean. *)
Definition truthy (v : JSValue) : bool :=
  match v with
  | JUndefined | JNull => false
  | JBool b => b
  | JNum x => negb (Qeq_bool x 0)
  | JStr s => negb (String.eqb s "")
  | JArr _ | JObj _ | JPromise _ => true
  end.

(** [a ?? b] *)
Definition nullish (a b : JSValue) : JSValue :=
  match a with
  | JUndefined | JNull => b
  | _ => a
  end.

(** [a === b].  Primitives compare by value.  Objects compare by
    identity: every comparison made by this middleware has one operand
    taken from the request (or from the parser's output for it) and the
    other from the start-up catalog or a constant, so two object operands
    are never the same allocation. *)
Definition strict_eq (a b : JSValue) : bool :=
  match a, b with
  | JUndefined, JUndefined => true
  | JNull, JNull => true
  | JBool x, JBool y => Bool.eqb x y
  | JNum x, JNum y => Qeq_bool x y
  | JStr x, JStr y => String.eqb x y
  | _, _ => false
  end.

(** Exceptions: the runtime's [TypeError], or whatever a collaborator
    throws. *)
Inductive Exn : Type :=
  | TypeError (msg : string)
  | Thrown (v : JSValue).

(** The completion of a call that may throw. *)
Inductive Completion (A : Type) : Type :=
  | Normal (a : A)
  | Throw (e : Exn).
Arguments Normal {A} a.
Arguments Throw {A} e.

(** ** The request and the model-spec catalog *)

(** [TModelSpec]: a named preset. *)
Record TModelSpec : Type := {
  name : string;
  preset : JSObject;
}.

(** [req.app.locals.modelSpecs]; [list] may be missing. *)
Record ModelSpecs : Type := {
  list_ : option (list TModelSpec);
  enforce : JSValue;
}.

(** The part of [req] this middleware reads: the body (mutable) and the
    application locals (read-only). *)
Record Request : Type := {
  body : JSObject;
  modelSpecs : option ModelSpecs;
}.

(** The argument object [{ endpoint, endpointType, conversation }] of
    [parseCompactConvo]. *)
Record ParseArgs : Type := {
  pa_endpoint : JSValue;
  pa_endpointType : JSValue;
  pa_conversation : JSObject;
}.

(** The enum [EModelEndpoint], as far as the dispatch table uses it. *)
Record EModelEndpointT : Type := {
  openAI : string;
  google : string;
  custom : string;
  agents : string;
  bedrock : string;
  azureOpenAI : string;
  anthropic : string;
  gptPlugins : string;
  assistants : string;
  azureAssistants : string;
}.

Definition endpoint_names (E : EModelEndpointT) : list string :=
  [openAI E; google E; custom E; agents E; bedrock E;
   azureOpenAI E; anthropic E; gptPlugins E; assistants E; azureAssistants E].

(** The [buildOptions] functions of the nine provider modules. *)
Inductive BuilderName : Type :=
  | openAI_buildOptions
  | google_buildOptions
  | custom_buildOptions
  | agents_buildOptions
  | bedrock_buildOptions
  | anthropic_buildOptions
  | gptPlugins_buildOptions
  | assistants_buildOptions
  | azureAssistants_buildOptions.

(** An actual argument of a builder call. *)
Inductive Arg : Type :=
  | AReq (r : Request)
  | AVal (v : JSValue)
  | AConvo (c : JSObject).

(** ** Observable effects *)

Inductive Event : Type :=
  | EvParse (a : ParseArgs)
  | EvHandleError (text : string)
  | EvBuild (fn : BuilderName) (args : list Arg)
  | EvCallInherited (k : string) (args : list Arg)
  | EvSetEndpointOption (v : JSValue)
  | EvGetModelsConfig (r : Request)
  | EvAwait (p : Promise)
  | EvSetOptionField (k : string) (v : JSValue)
  | EvProcessFiles (files : JSValue)
  | EvNext.

Record St : Type := {
  st_body : JSObject;
  st_trace : list Event;
}.

(** How a run of the middleware (or of a part of it) ends: it falls
    through with a value, it executes [return handleError(...)], or an
    exception escapes. *)
Inductive Res (A : Type) : Type :=
  | Val (a : A)
  | Ret
  | Exc (e : Exn).
Arguments Val {A} a.
Arguments Ret {A}.
Arguments Exc {A} e.

Definition M (A : Type) : Type := St -> Res A * St.

Definition ret {A} (a : A) : M A := fun s => (Val a, s).

Definition bind {A B} (m : M A) (k : A -> M B) : M B :=
  fun s =>
    match m s with
    | (Val a, s') => k a s'
    | (Ret, s') => (Ret, s')
    | (Exc e, s') => (Exc e, s')
    end.

#[global] Instance M_ret : MRet M := @ret.
#[global] Instance M_bind : MBind M := fun A B k m => bind m k.

(** The state after some more events. *)
Definition log (s : St) (evs : list Event) : St :=
  {| st_body := st_body s; st_trace := st_trace s ++ evs |}.

Definition emit (ev : Event) : M unit :=
  fun s => (Val tt, {| st_body := st_body s; st_trace := st_trace s ++ [ev] |}).

Definition read_body : M JSObject := fun s => (Val (st_body s), s).

Definition write_body (b : JSObject) : M unit :=
  fun s => (Val tt, {| st_body := b; st_trace := st_trace s |}).

Definition throw {A} (e : Exn) : M A := fun s => (Exc e, s).

Definition early_return {A} : M A := fun s => (Ret, s).

(** Lift a completion: a thrown exception escapes. *)
Definition lift {A} (c : Completion A) : M A :=
  match c with
  | Normal a => ret a
  | Throw e => throw e
  end.

(** [return handleError(res, { text })] *)
Definition handleError {A} (text : string) : M A :=
  emit (EvHandleError text);; early_return.

(** ASCII 34, the double quote of the template literal. *)
Definition dquote : string := String (Ascii.ascii_of_nat 34) EmptyString.

(** ** Collaborators

    The modules this middleware imports.  Their code is not part of the
    file; the middleware is verified against any implementation of this
    interface. *)
Class Collaborators : Type := {
  (** [librechat-data-provider] *)
  EModelEndpoint : EModelEndpointT;
  parseCompactConvo : ParseArgs -> Completion JSObject;
  isAgentsEndpoint : JSValue -> bool;
  (** [buildOptions] of each provider module: an options record, or a
      thrown exception. *)
  buildOptions : BuilderName -> list Arg -> Completion JSObject;
  (** [async] functions: they return a promise and never throw. *)
  getModelsConfig : Request -> Promise;
  processFiles : JSValue -> Promise;
  (** How a promise settles when it is awaited. *)
  settle : Promise -> Completion JSValue;
  (** ToPropertyKey on numbers and objects (number formatting, and the
      [toString]/[valueOf] of an object, which may throw). *)
  exoticKey : JSValue -> Completion string;
  (** The members of [Object.prototype] by name: [None] when there is no
      such member, otherwise what calling it with the given arguments
      does (a [TypeError] for a member that is not callable). *)
  objectPrototype : string -> option (list Arg -> Completion JSValue);
}.

(** What [buildFunction[key]] evaluates to when it is not [undefined]: a
    builder stored in the table or, because [buildFunction] is an
    ordinary object literal, a member it inherits from
    [Object.prototype] (for instance [buildFunction["constructor"]] is
    the function [Object]). *)
Inductive Callee : Type :=
  | Builder (fn : BuilderName)
  | Inherited (k : string) (f : list Arg -> Completion JSValue).

Section Middleware.

Context `{!Collaborators}.

(** *** The dispatch table (lines 15-26) *)

(** An object literal with computed keys: properties are defined in
    source order, a later duplicate key overwriting an earlier one. *)
Definition buildFunction : gmap string BuilderName :=
  <[azureAssistants EModelEndpoint := azureAssistants_buildOptions]>
  (<[assistants EModelEndpoint := assistants_buildOptions]>
  (<[gptPlugins EModelEndpoint := gptPlugins_buildOptions]>
  (<[anthropic EModelEndpoint := anthropic_buildOptions]>
  (<[azureOpenAI EModelEndpoint := openAI_buildOptions]>
  (<[bedrock EModelEndpoint := bedrock_buildOptions]>
  (<[agents EModelEndpoint := agents_buildOptions]>
  (<[custom EModelEndpoint := custom_buildOptions]>
  (<[google EModelEndpoint := google_buildOptions]>
  (<[openAI EModelEndpoint := openAI_buildOptions]> ∅))))))))).

(** ECMAScript ToPropertyKey, used by [buildFunction[...]]. *)
Definition ToPropertyKey (v : JSValue) : Completion string :=
  match v with
  | JStr s => Normal s
  | JUndefined => Normal "undefined"
  | JNull => Normal "null"
  | JBool b => Normal (if b then "true" else "false")
  | _ => exoticKey v
  end.

(** [buildFunction[key]]: own properties shadow inherited ones. *)
Definition lookupBuildFunction (key : string) : option Callee :=
  match buildFunction !! key with
  | Some fn => Some (Builder fn)
  | None => Inherited key <$> objectPrototype key
  end.

(** *** Conversation Normalizer (lines 31-35 and 64-72) *)

(** [try { parseCompactConvo(args) } catch { return handleError(text) }] *)
Definition tryParse (args : ParseArgs) (text : string) : M JSObject :=
  emit (EvParse args);;
  match parseCompactConvo args with
  | Normal c => mret c
  | Throw _ => handleError text
  end.

(** *** Spec Enforcer (lines 37-73) *)

(** [modelSpecs?.list && modelSpecs?.enforce]: the list, when the
    condition holds. *)
Definition enforcing (ms : option ModelSpecs) : option (list TModelSpec) :=
  match ms with
  | Some m =>
      match list_ m with
      | Some l => if truthy (enforce m) then Some l else None
      | None => None
      end
  | None => None
  end.

(** [list.find((s) => s.name === spec)] *)
Definition findSpec (l : list TModelSpec) (spec : JSValue) : option TModelSpec :=
  List.find (fun s => strict_eq (JStr (name s)) spec) l.

(** [endpoint !== currentModelSpec.preset.endpoint] *)
Definition endpointMismatch (endpoint : JSValue) (s : TModelSpec) : bool :=
  negb (strict_eq endpoint (get (preset s) "endpoint")).

(** [preset.endpoint !== EModelEndpoint.gptPlugins && preset.tools] *)
Definition toolsViolation (s : TModelSpec) : bool :=
  negb (strict_eq (get (preset s) "endpoint") (JStr (gptPlugins EModelEndpoint)))
  && truthy (get (preset s) "tools").

(** The template literal of line 60. *)
Definition toolsMessage : string :=
  "Only the " +:+ dquote +:+ gptPlugins EModelEndpoint +:+ dquote
    +:+ " endpoint can have tools defined in the preset".

(** The body of the [if] at line 37. *)
Definition enforceSpec (l : list TModelSpec) (endpoint endpointType : JSValue)
    (parsedBody : JSObject) : M JSObject :=
  let spec := get parsedBody "spec" in
  if negb (truthy spec) then handleError "No model spec selected" else
  match findSpec l spec with
  | None => handleError "Invalid model spec"
  | Some currentModelSpec =>
      if endpointMismatch endpoint currentModelSpec
      then handleError "Model spec mismatch" else
      if toolsViolation currentModelSpec
      then handleError toolsMessage else
      tryParse {| pa_endpoint := endpoint; pa_endpointType := endpointType;
                  pa_conversation := preset currentModelSpec |}
               "Error parsing model spec"
  end.

(** Lines 29-73: the conversation that will be handed to the builder. *)
Definition normalize (ms : option ModelSpecs) : M JSObject :=
  b ← read_body;
  let endpoint := get b "endpoint" in
  let endpointType := get b "endpointType" in
  parsedBody ← tryParse {| pa_endpoint := endpoint; pa_endpointType := endpointType;
                            pa_conversation := b |}
                         "Error parsing conversation";
  match enforcing ms with
  | Some l => enforceSpec l endpoint endpointType parsedBody
  | None => mret parsedBody
  end.

(** *** Builder Dispatcher (lines 75-79) *)

(** Calling [endpointFn]: [undefined] is not callable. *)
Definition callEndpointFn (endpointFn : option Callee) (args : list Arg)
    : M JSValue :=
  match endpointFn with
  | None => throw (TypeError "endpointFn is not a function")
  | Some (Builder fn) =>
      emit (EvBuild fn args);;
      o ← lift (buildOptions fn args);
      mret (JObj o)
  | Some (Inherited k f) =>
      emit (EvCallInherited k args);;
      lift (f args)
  end.

(** Calling [builder]: the arrow function that prepends [req], or
    [endpointFn] itself. *)
Definition callBuilder (bound : bool) (endpointFn : option Callee)
    (req : Request) (args : list Arg) : M JSValue :=
  if bound then callEndpointFn endpointFn (AReq req :: args)
  else match endpointFn with
       | None => throw (TypeError "builder is not a function")
       | Some _ => callEndpointFn endpointFn args
       end.

Definition dispatch (ms : option ModelSpecs) (parsedBody : JSObject) : M unit :=
  b ← read_body;
  let endpoint := get b "endpoint" in
  let endpointType := get b "endpointType" in
  key ← lift (ToPropertyKey (nullish endpointType endpoint));
  let endpointFn := lookupBuildFunction key in
  let bound := isAgentsEndpoint endpoint in
  opts ← callBuilder bound endpointFn {| body := b; modelSpecs := ms |}
            [AVal endpoint; AConvo parsedBody; AVal endpointType];
  emit (EvSetEndpointOption opts);;
  write_body (<["endpointOption" := opts]> b).

(** *** Option Enricher (lines 81-89) *)

(** [req.body.endpointOption.k = v].  The module is non-strict code: a
    write to a primitive is ignored, a write to [undefined] or [null]
    throws.  A write to an array or a promise lands on that object; the
    model records the write but keeps no extra properties for them. *)
Definition setOptionField (k : string) (v : JSValue) : M unit :=
  b ← read_body;
  match get b "endpointOption" with
  | JObj o =>
      emit (EvSetOptionField k v);;
      write_body (<["endpointOption" := JObj (<[k := v]> o)]> b)
  | JArr _ | JPromise _ => emit (EvSetOptionField k v)
  | JUndefined | JNull =>
      throw (TypeError "Cannot set properties of undefined")
  | JBool _ | JNum _ | JStr _ => mret tt
  end.

Definition enrich (ms : option ModelSpecs) : M unit :=
  b ← read_body;
  let p := getModelsConfig {| body := b; modelSpecs := ms |} in
  emit (EvGetModelsConfig {| body := b; modelSpecs := ms |});;
  emit (EvAwait p);;
  modelsConfig ← lift (settle p);
  setOptionField "modelsConfig" modelsConfig;;
  b ← read_body;
  (if truthy (get b "files")
   then emit (EvProcessFiles (get b "files"));;
        setOptionField "attachments" (JPromise (processFiles (get b "files")))
   else mret tt);;
  emit EvNext.

(** *** The middleware *)

Definition pipeline (ms : option ModelSpecs) : M unit :=
  parsedBody ← normalize ms;
  dispatch ms parsedBody;;
  enrich ms.

(** The state in which the middleware is entered. *)
Definition initial (req : Request) : St :=
  {| st_body := body req; st_trace := [] |}.

Definition buildEndpointOption (req : Request) : Res unit * St :=
  pipeline (modelSpecs req) (initial req).

(** *** Vocabulary for the properties *)

(** The argument of the first and of the second call of the parser. *)
Definition clientArgs (b : JSObject) : ParseArgs :=
  {| pa_endpoint := get b "endpoint"; pa_endpointType := get b "endpointType";
     pa_conversation := b |}.

Definition presetArgs (b : JSObject) (s : TModelSpec) : ParseArgs :=
  {| pa_endpoint := get b "endpoint"; pa_endpointType := get b "endpointType";
     pa_conversation := preset s |}.

(** The identifier the dispatcher looks up: [endpointType ?? endpoint]. *)
Definition dispatchIdentifier (b : JSObject) : JSValue :=
  nullish (get b "endpointType") (get b "endpoint").

(** The arguments the selected function is called with. *)
Definition builderArgs (req : Request) (c : JSObject) : list Arg :=
  (if isAgentsEndpoint (get (body req) "endpoint") then [AReq req] else [])
    ++ [AVal (get (body req) "endpoint"); AConvo c;
        AVal (get (body req) "endpointType")].

(** The pipeline reaches the dispatcher with conversation [c]: parsing
    and, when it applies, enforcement went through. *)
Definition normalized (req : Request) (c : JSObject) : Prop :=
  ∃ s, normalize (modelSpecs req) (initial req) = (Val c, s).

(** The request selects a spec that the catalog contains (steps 1 and 2
    of the enforcer pass, with [s] the entry found). *)
Definition selects (req : Request) (s : TModelSpec) : Prop :=
  ∃ l c0,
    enforcing (modelSpecs req) = Some l ∧
    parseCompactConvo (clientArgs (body req)) = Normal c0 ∧
    truthy (get c0 "spec") = true ∧
    findSpec l (get c0 "spec") = Some s.

(** The messages of the six [handleError] calls. *)
Definition failureMessages : list string :=
  [ "Error parsing conversation"; "No model spec selected";
    "Invalid model spec"; "Model spec mismatch"; toolsMessage;
    "Error parsing model spec" ].

End Middleware.

(** Projections of a trace. *)

Definition builderCalls (t : list Event) : list (BuilderName * list Arg) :=
  omap (fun ev => match ev with EvBuild fn args => Some (fn, args) | _ => None end) t.

Definition inheritedCalls (t : list Event) : list string :=
  omap (fun ev => match ev with EvCallInherited k _ => Some k | _ => None end) t.

Definition parses (t : list Event) : list ParseArgs :=
  omap (fun ev => match ev with EvParse a => Some a | _ => None end) t.

Definition handled (t : list Event) : list string :=
  omap (fun ev => match ev with EvHandleError text => Some text | _ => None end) t.

Definition assignments (t : list Event) : list JSValue :=
  omap (fun ev => match ev with EvSetEndpointOption v => Some v | _ => None end) t.

Definition fieldWrites (t : list Event) : list (string * JSValue) :=
  omap (fun ev => match ev with EvSetOptionField k v => Some (k, v) | _ => None end) t.

Definition awaits (t : list Event) : list Promise :=
  omap (fun ev => match ev with EvAwait p => Some p | _ => None end) t.

Definition fileCalls (t : list Event) : list JSValue :=
  omap (fun ev => match ev with EvProcessFiles f => Some f | _ => None end) t.

Definition nextCalls (t : list Event) : list unit :=
  omap (fun ev => match ev with EvNext => Some tt | _ => None end) t.

(** ** A concrete deployment, used to run the middleware on examples *)

Module Sample.

(** The values of [EModelEndpoint] in librechat-data-provider. *)
Definition E : EModelEndpointT := {|
  openAI := "openAI";
  google := "google";
  custom := "custom";
  agents := "agents";
  bedrock := "bedrock";
  azureOpenAI := "azureOpenAI";
  anthropic := "anthropic";
  gptPlugins := "gptPlugins";
  assistants := "assistants";
  azureAssistants := "azureAssistants";
|}.

(** A parser that rejects a missing endpoint and a conversation marked
    [malformed], and otherwise keeps the fields of the conversation. *)
Definition parse (a : ParseArgs) : Completion JSObject :=
  if negb (truthy (pa_endpoint a)) then Throw (Thrown (JStr "Unknown endpoint"))
  else if truthy (get (pa_conversation a) "malformed")
  then Throw (Thrown (JStr "ZodError"))
  else Normal (pa_conversation a).

Definition isAgents (v : JSValue) : bool := strict_eq v (JStr "agents").

(** Builders that wrap the conversation they find where they expect
    [parsedBody]: second of three arguments, or third of four for the
    builder that takes [req] first. *)
Definition build (fn : BuilderName) (args : list Arg) : Completion JSObject :=
  match fn, args with
  | agents_buildOptions, [AReq _; _; AConvo c; _] => Normal {[ "modelOptions" := JObj c ]}
  | agents_buildOptions, _ => Throw (TypeError "Cannot read properties of undefined")
  | _, [_; AConvo c; _] => Normal {[ "modelOptions" := JObj c ]}
  | _, _ => Throw (TypeError "Cannot destructure parsedBody")
  end.

Definition modelsConfigPromise : Promise := PromiseId 1.
Definition attachmentsPromise : Promise := PromiseId 2.

(** [Object.prototype.constructor] is the function [Object], so for any
    object literal [o], [o["constructor"]] is [Object]; called on a
    value it returns an object (a wrapper, for a primitive).  The other
    members of the prototype are left out of this deployment. *)
Definition proto (k : string) : option (list Arg -> Completion JSValue) :=
  if String.eqb k "constructor" then Some (fun _ => Normal (JObj ∅)) else None.

Definition deps : Collaborators := {|
  EModelEndpoint := E;
  parseCompactConvo := parse;
  isAgentsEndpoint := isAgents;
  buildOptions := build;
  getModelsConfig := fun _ => modelsConfigPromise;
  processFiles := fun _ => attachmentsPromise;
  settle := fun _ => Normal (JObj {[ "openAI" := JArr [JStr "gpt-4o"] ]});
  exoticKey := fun _ => Normal "[object Object]";
  objectPrototype := proto;
|}.

Definition run (req : Request) : Res unit * St :=
  @buildEndpointOption deps req.

(** A catalog: [S] is a well-formed spec; [T] declares tools for a
    provider that is not the tool-using one. *)
Definition specS : TModelSpec :=
  {| name := "S";
     preset := {[ "endpoint" := JStr "openAI"; "temperature" := JNum (2 # 10) ]} |}.

Definition specT : TModelSpec :=
  {| name := "T";
     preset := {[ "endpoint" := JStr "google"; "tools" := JArr [JStr "calculator"] ]} |}.

Definition specBad : TModelSpec :=
  {| name := "B";
     preset := {[ "endpoint" := JStr "openAI"; "malformed" := JBool true ]} |}.

Definition catalog : option ModelSpecs :=
  Some {| list_ := Some [specS; specT; specBad]; enforce := JBool true |}.

Definition request (fields : JSObject) (ms : option ModelSpecs) : Request :=
  {| body := fields; modelSpecs := ms |}.

(** [{endpoint: "openAI", spec: "S", temperature: 0.9}] under enforcement. *)
Definition reqEnforced : Request :=
  request {[ "endpoint" := JStr "openAI"; "spec" := JStr "S";
             "temperature" := JNum (9 # 10) ]} catalog.

(** The same payload with no catalog. *)
Definition reqPlain : Request :=
  request {[ "endpoint" := JStr "openAI"; "spec" := JStr "S";
             "temperature" := JNum (9 # 10) ]} None.

(** A payload with an empty file list. *)
Definition reqEmptyFiles : Request :=
  request {[ "endpoint" := JStr "openAI"; "files" := JArr [] ]} None.

(** A payload with one file. *)
Definition reqOneFile : Request :=
  request {[ "endpoint" := JStr "openAI";
             "files" := JArr [JObj {[ "file_id" := JStr "f1" ]}] ]} None.

(** Spec [S] is for [openAI]; the request comes through [google]. *)
Definition reqMismatch : Request :=
  request {[ "endpoint" := JStr "google"; "spec" := JStr "S" ]} catalog.

(** Spec [T] requested through its own provider. *)
Definition reqTools : Request :=
  request {[ "endpoint" := JStr "google"; "spec" := JStr "T" ]} catalog.

(** Spec [T] requested through another provider. *)
Definition reqToolsMismatch : Request :=
  request {[ "endpoint" := JStr "openAI"; "spec" := JStr "T" ]} catalog.

(** A payload the parser rejects. *)
Definition reqMalformed : Request :=
  request {[ "endpoint" := JStr "openAI"; "malformed" := JBool true ]} None.

(** A spec whose preset the parser rejects. *)
Definition reqBadPreset : Request :=
  request {[ "endpoint" := JStr "openAI"; "spec" := JStr "B" ]} catalog.

(** The Azure variant: [endpointType] decides the builder. *)
Definition reqAzure : Request :=
  request {[ "endpoint" := JStr "openAI"; "endpointType" := JStr "azureOpenAI" ]} None.

(** Identifiers that are not keys of the table. *)
Definition reqUnknown : Request :=
  request {[ "endpoint" := JStr "openAI"; "endpointType" := JStr "mistral" ]} None.

Definition reqConstructor : Request :=
  request {[ "endpoint" := JStr "openAI"; "endpointType" := JStr "constructor" ]} None.

(** [endpointType] names the agents family, [endpoint] does not. *)
Definition reqAgentsType : Request :=
  request {[ "endpoint" := JStr "openAI"; "endpointType" := JStr "agents" ]} None.

Definition reqAgents : Request :=
  request {[ "endpoint" := JStr "agents" ]} None.

End Sample.

(** ** Readings of the specification *)

(** The process-wide catalog is present and its [enforce] flag is set. *)
Definition catalogEnforced (ms : option ModelSpecs) : Prop :=
  ∃ m l, ms = Some m ∧ list_ m = Some l ∧ truthy (enforce m) = true.

(** After the client payload was parsed, the next thing the middleware
    did was an action of the Spec Enforcer: it reported an error or
    parsed a preset. *)
Definition enforcerActed (t : list Event) : bool :=
  match t with
  | EvParse _ :: EvHandleError _ :: _ => true
  | EvParse _ :: EvParse _ :: _ => true
  | _ => false
  end.

(** [endpointOption] is an object with an [attachments] property. *)
Definition hasAttachments (b : JSObject) : Prop :=
  ∃ o v, get b "endpointOption" = JObj o ∧ o !! "attachments" = Some v.

(** The file list of the request is a non-empty array. *)
Definition nonEmptyFileList (b : JSObject) : Prop :=
  ∃ f fs, get b "files" = JArr (f :: fs).

(** The attachments sentence as the specification words it: after a
    successful run, [attachments] is present exactly when the file list
    is non-empty. *)
Definition attachments_iff_nonempty_file_list : Prop :=
  ∀ (D : Collaborators) (req : Request) (st : St),
    buildEndpointOption req = (Val tt, st) →
    hasAttachments (st_body st) ↔ nonEmptyFileList (body req).

(** The tools sentence as the specification words it: whenever the
    matched spec declares tools for another provider, the request ends
    with the tools error. *)
Definition tools_violation_always_reported : Prop :=
  ∀ (D : Collaborators) (req : Request) (cs : TModelSpec),
    selects req cs →
    truthy (get (preset cs) "tools") = true →
    strict_eq (get (preset cs) "endpoint") (JStr (gptPlugins EModelEndpoint)) = false →
    ∃ st, buildEndpointOption req = (Ret, st) ∧
          handled (st_trace st) = [toolsMessage].

(** The parse-error sentence with the message texts the specification
    quotes. *)
Definition parse_errors_reported_as_quoted : Prop :=
  ∀ (D : Collaborators) (req : Request),
    (∀ e, parseCompactConvo (clientArgs (body req)) = Throw e →
       ∃ st, buildEndpointOption req = (Ret, st) ∧
             handled (st_trace st) = ["error parsing conversation"]) ∧
    (∀ cs e, selects req cs →
       endpointMismatch (get (body req) "endpoint") cs = false →
       toolsViolation cs = false →
       parseCompactConvo (presetArgs (body req) cs) = Throw e →
       ∃ st, buildEndpointOption req = (Ret, st) ∧
             handled (st_trace st) = ["error parsing model spec"]).

(** The unknown-identifier sentence as worded: an identifier that is not
    a key of the table makes the lookup come back empty and the call
    throw. *)
Definition unknown_identifier_always_throws : Prop :=
  ∀ (D : Collaborators) (req : Request) (c : JSObject) (k : string),
    normalized req c →
    ToPropertyKey (dispatchIdentifier (body req)) = Normal k →
    buildFunction !! k = None →
    lookupBuildFunction k = None ∧
    ∃ e st, buildEndpointOption req = (Exc e, st).

(** ** Further vocabulary *)

Definition modelsCalls (t : list Event) : list Request :=
  omap (fun ev => match ev with EvGetModelsConfig r => Some r | _ => None end) t.

(** A stretch of the trace in which nothing was reported, assigned,
    fetched, awaited or handed on: only parser calls and calls of the
    dispatched function. *)
Definition quiet (t : list Event) : Prop :=
  handled t = [] ∧ assignments t = [] ∧ fieldWrites t = [] ∧
  modelsCalls t = [] ∧ awaits t = [] ∧ fileCalls t = [] ∧ nextCalls t = [].

(** The call of the function found in the table. *)
Definition isCall (ev : Event) : Prop :=
  match ev with
  | EvBuild _ _ | EvCallInherited _ _ => True
  | _ => False
  end.

(** The request as [getModelsConfig] sees it: [endpointOption] is
    already on the body. *)
Definition withOption (req : Request) (v : JSValue) : Request :=
  {| body := <["endpointOption" := v]> (body req); modelSpecs := modelSpecs req |}.

(** ** The SearXNG service of the implementation notes

    The JavaScript of [searxng.js] and [envValidation.js] as the notes
    give it: the environment check, the constructor of the service and
    the reshaping of the search results. *)

Module SearXNG.

(** What this code throws: [new Error(message)], or the runtime's
    [TypeError]. *)
Inductive Failure : Type :=
  | Error (message : string)
  | TypeErr (message : string).

Inductive Outcome (A : Type) : Type :=
  | Ok (a : A)
  | Fails (f : Failure).
Arguments Ok {A} a.
Arguments Fails {A} f.

(** [!process.env[name]]: the variable is missing or empty. *)
Definition unset (env : gmap string string) (name : string) : bool :=
  match env !! name with
  | Some v => String.eqb v ""
  | None => true
  end.

Definition requiredVars : list string := ["SEARXNG_QUERY_URL"].

Definition notSetMessage (variable : string) : string :=
  "Required environment variable " +:+ variable +:+ " is not set".

(** The [for (const variable of ...)] loop. *)
Fixpoint validateEach (env : gmap string string) (vars : list string) : Outcome unit :=
  match vars with
  | [] => Ok tt
  | variable :: rest =>
      if unset env variable then Fails (Error (notSetMessage variable))
      else validateEach env rest
  end.

Definition validateEnvironmentVariables (env : gmap string string) : Outcome unit :=
  validateEach env requiredVars.

Record SearXNGService : Type := { baseURL : string }.

(** [new SearXNGService()] *)
Definition constructor (env : gmap string string) : Outcome SearXNGService :=
  match env !! "SEARXNG_QUERY_URL" with
  | Some v =>
      if String.eqb v ""
      then Fails (Error "SEARXNG_QUERY_URL environment variable is not set")
      else Ok {| baseURL := v |}
  | None => Fails (Error "SEARXNG_QUERY_URL environment variable is not set")
  end.

(** [result.k] for the names read by [processResults] ([title], [url],
    [content]), which no primitive, array or promise has: reading them
    off [undefined] or [null] throws, off anything else that is not a
    plain object gives [undefined]. *)
Definition field (result : JSValue) (k : string) : Outcome JSValue :=
  match result with
  | JUndefined | JNull => Fails (TypeErr "Cannot read properties of undefined")
  | JObj o => Ok (get o k)
  | _ => Ok JUndefined
  end.

(** The arrow function given to [map]. *)
Definition processOne (result : JSValue) : Outcome JSValue :=
  match field result "title", field result "url", field result "content" with
  | Ok t, Ok u, Ok c =>
      Ok (JObj (<["snippet" := c]> (<["link" := u]> (<["title" := t]> ∅))))
  | Fails f, _, _ | _, Fails f, _ | _, _, Fails f => Fails f
  end.

(** [results.map(...)] on the elements, left to right. *)
Fixpoint mapResults (items : list JSValue) : Outcome (list JSValue) :=
  match items with
  | [] => Ok []
  | result :: rest =>
      match processOne result with
      | Ok o =>
          match mapResults rest with
          | Ok os => Ok (o :: os)
          | Fails f => Fails f
          end
      | Fails f => Fails f
      end
  end.

Definition processResults (results : JSValue) : Outcome JSValue :=
  match results with
  | JArr items =>
      match mapResults items with
      | Ok os => Ok (JArr os)
      | Fails f => Fails f
      end
  | JUndefined | JNull => Fails (TypeErr "Cannot read properties of undefined")
  | _ => Fails (TypeErr "results.map is not a function")
  end.

(** A result the service can reshape: anything but [undefined] and
    [null]. *)
Definition readable (result : JSValue) : Prop :=
  result ≠ JUndefined ∧ result ≠ JNull.

(** What [result.k] is for a readable result. *)
Definition fieldOf (result : JSValue) (k : string) : JSValue :=
  match result with
  | JObj o => get o k
  | _ => JUndefined
  end.

(** The object built for a readable result. *)
Definition reshaped (result : JSValue) : JSValue :=
  JObj (<["snippet" := fieldOf result "content"]>
        (<["link" := fieldOf result "url"]>
         (<["title" := fieldOf result "title"]> ∅))).

(** A page of results as the search engine sends them, with one entry
    that is not an object. *)
Definition samplePage : list JSValue :=
  [ JObj {[ "title" := JStr "Rocq"; "url" := JStr "https://rocq-prover.org";
            "content" := JStr "A proof assistant"; "engine" := JStr "duckduckgo" ]};
    JObj {[ "title" := JStr "No snippet"; "url" := JStr "https://example.org" ]};
    JStr "stray" ].

Definition sampleEnv : gmap string string :=
  {[ "SEARXNG_QUERY_URL" := "https://searxng.2damoon.xyz/search"; "PORT" := "3080" ]}.

End SearXNG.

(** ** More sample requests *)

Module MoreSamples.

Import Sample.

(** The sample deployment with a model catalog that cannot be fetched. *)
Definition depsRejecting : Collaborators := {|
  EModelEndpoint := E;
  parseCompactConvo := parse;
  isAgentsEndpoint := isAgents;
  buildOptions := build;
  getModelsConfig := fun _ => modelsConfigPromise;
  processFiles := fun _ => attachmentsPromise;
  settle := fun _ => Throw (Thrown (JStr "models unavailable"));
  exoticKey := fun _ => Normal "[object Object]";
  objectPrototype := proto;
|}.

(** Enforcement is on and the payload names no spec. *)
Definition reqNoSpec : Request :=
  request {[ "endpoint" := JStr "openAI" ]} catalog.

(** The payload names a spec the catalog does not have. *)
Definition reqUnknownSpec : Request :=
  request {[ "endpoint" := JStr "openAI"; "spec" := JStr "Z" ]} catalog.

(** A catalog with an entry named ["1"], and a payload whose [spec] is
    the number 1. *)
Definition specOne : TModelSpec :=
  {| name := "1"; preset := {[ "endpoint" := JStr "openAI" ]} |}.

Definition reqNumericSpec : Request :=
  request {[ "endpoint" := JStr "openAI"; "spec" := JNum 1 ]}
    (Some {| list_ := Some [specOne]; enforce := JBool true |}).

(** Enforcement is on and the list is empty. *)
Definition reqEmptyCatalog : Request :=
  request {[ "endpoint" := JStr "openAI"; "spec" := JStr "S" ]}
    (Some {| list_ := Some []; enforce := JBool true |}).

(** Two entries are named [S]; the second is for another provider. *)
Definition specS2 : TModelSpec :=
  {| name := "S"; preset := {[ "endpoint" := JStr "google" ]} |}.

Definition reqDuplicates : Request :=
  request {[ "endpoint" := JStr "openAI"; "spec" := JStr "S" ]}
    (Some {| list_ := Some [specT; specS; specS2]; enforce := JBool true |}).

(** A preset of the tool-using provider that declares tools. *)
Definition specPlugins : TModelSpec :=
  {| name := "P";
     preset := {[ "endpoint" := JStr "gptPlugins"; "tools" := JArr [JStr "calculator"] ]} |}.

Definition reqPlugins : Request :=
  request {[ "endpoint" := JStr "gptPlugins"; "spec" := JStr "P" ]}
    (Some {| list_ := Some [specPlugins]; enforce := JBool true |}).

(** [endpoint] and [endpointType] name different providers. *)
Definition reqTypeOverEndpoint : Request :=
  request {[ "endpoint" := JStr "google"; "endpointType" := JStr "anthropic" ]} None.

(** No [endpointType], and an [endpointType] that is [null]. *)
Definition reqNoType : Request :=
  request {[ "endpoint" := JStr "google" ]} None.

Definition reqNullType : Request :=
  request {[ "endpoint" := JStr "google"; "endpointType" := JNull ]} None.

End MoreSamples.

(** * Properties *)

Lemma get_insert_eq (o : JSObject) (k : string) (v : JSValue) :
  get (<[k := v]> o) k = v.
Proof. unfold get. by rewrite lookup_insert_eq. Qed.

Lemma get_insert_ne (o : JSObject) (k k' : string) (v : JSValue) :
  k ≠ k' → get (<[k := v]> o) k' = get o k'.
Proof. intros Hne. unfold get. by rewrite lookup_insert_ne. Qed.

Lemma log_nil (s : St) : log s [] = s.
Proof. destruct s. unfold log. simpl. by rewrite app_nil_r. Qed.

Lemma log_log (s : St) (e1 e2 : list Event) : log (log s e1) e2 = log s (e1 ++ e2).
Proof. unfold log. simpl. by rewrite app_assoc. Qed.

Lemma builderCalls_app t1 t2 : builderCalls (t1 ++ t2) = builderCalls t1 ++ builderCalls t2.
Proof. apply omap_app. Qed.

Lemma inheritedCalls_app t1 t2 :
  inheritedCalls (t1 ++ t2) = inheritedCalls t1 ++ inheritedCalls t2.
Proof. apply omap_app. Qed.

Lemma parses_app t1 t2 : parses (t1 ++ t2) = parses t1 ++ parses t2.
Proof. apply omap_app. Qed.

Lemma handled_app t1 t2 : handled (t1 ++ t2) = handled t1 ++ handled t2.
Proof. apply omap_app. Qed.

Lemma assignments_app t1 t2 : assignments (t1 ++ t2) = assignments t1 ++ assignments t2.
Proof. apply omap_app. Qed.

Lemma fieldWrites_app t1 t2 : fieldWrites (t1 ++ t2) = fieldWrites t1 ++ fieldWrites t2.
Proof. apply omap_app. Qed.

Lemma awaits_app t1 t2 : awaits (t1 ++ t2) = awaits t1 ++ awaits t2.
Proof. apply omap_app. Qed.

Lemma fileCalls_app t1 t2 : fileCalls (t1 ++ t2) = fileCalls t1 ++ fileCalls t2.
Proof. apply omap_app. Qed.

Lemma nextCalls_app t1 t2 : nextCalls (t1 ++ t2) = nextCalls t1 ++ nextCalls t2.
Proof. apply omap_app. Qed.

Create Rewrite HintDb trace_proj.
#[export] Hint Rewrite builderCalls_app inheritedCalls_app parses_app handled_app
  assignments_app fieldWrites_app awaits_app fileCalls_app nextCalls_app : trace_proj.

(** Unfold the monad on a concrete control path. *)
Ltac mrun :=
  repeat (unfold mbind, M_bind, bind, mret, M_ret, ret, emit, read_body,
            write_body, throw, early_return, handleError, lift; simpl).

Section Properties.

Context `{!Collaborators}.

(** ** The parser calls *)

Lemma tryParse_ok (a : ParseArgs) (text : string) (c : JSObject) (s : St) :
  parseCompactConvo a = Normal c →
  tryParse a text s = (Val c, log s [EvParse a]).
Proof. intros Hp. unfold tryParse. mrun. by rewrite Hp. Qed.

Lemma tryParse_throw (a : ParseArgs) (text : string) (e : Exn) (s : St) :
  parseCompactConvo a = Throw e →
  tryParse a text s = (Ret, log s [EvParse a; EvHandleError text]).
Proof.
  intros Hp. unfold tryParse. mrun. rewrite Hp. unfold log. simpl.
  by rewrite <- app_assoc.
Qed.

(** ** The enforcer, check by check *)

Lemma enforceSpec_no_spec l endpoint endpointType c0 s :
  truthy (get c0 "spec") = false →
  enforceSpec l endpoint endpointType c0 s
  = (Ret, log s [EvHandleError "No model spec selected"]).
Proof. intros Hs. unfold enforceSpec. by rewrite Hs. Qed.

Lemma enforceSpec_invalid l endpoint endpointType c0 s :
  truthy (get c0 "spec") = true →
  findSpec l (get c0 "spec") = None →
  enforceSpec l endpoint endpointType c0 s
  = (Ret, log s [EvHandleError "Invalid model spec"]).
Proof. intros Hs Hf. unfold enforceSpec. by rewrite Hs, Hf. Qed.

Lemma enforceSpec_mismatch l endpoint endpointType c0 cs s :
  truthy (get c0 "spec") = true →
  findSpec l (get c0 "spec") = Some cs →
  endpointMismatch endpoint cs = true →
  enforceSpec l endpoint endpointType c0 s
  = (Ret, log s [EvHandleError "Model spec mismatch"]).
Proof. intros Hs Hf Hm. unfold enforceSpec. by rewrite Hs, Hf, Hm. Qed.

Lemma enforceSpec_tools l endpoint endpointType c0 cs s :
  truthy (get c0 "spec") = true →
  findSpec l (get c0 "spec") = Some cs →
  endpointMismatch endpoint cs = false →
  toolsViolation cs = true →
  enforceSpec l endpoint endpointType c0 s
  = (Ret, log s [EvHandleError toolsMessage]).
Proof. intros Hs Hf Hm Ht. unfold enforceSpec. by rewrite Hs, Hf, Hm, Ht. Qed.

Lemma enforceSpec_reparse l endpoint endpointType c0 cs s :
  truthy (get c0 "spec") = true →
  findSpec l (get c0 "spec") = Some cs →
  endpointMismatch endpoint cs = false →
  toolsViolation cs = false →
  enforceSpec l endpoint endpointType c0 s
  = tryParse {| pa_endpoint := endpoint; pa_endpointType := endpointType;
                pa_conversation := preset cs |} "Error parsing model spec" s.
Proof. intros Hs Hf Hm Ht. unfold enforceSpec. by rewrite Hs, Hf, Hm, Ht. Qed.

(** ** Normalisation *)

Lemma normalize_client_throw ms e s :
  parseCompactConvo (clientArgs (st_body s)) = Throw e →
  normalize ms s
  = (Ret, log s [EvParse (clientArgs (st_body s));
                 EvHandleError "Error parsing conversation"]).
Proof.
  intros Hp. unfold normalize.
  unfold mbind at 1, M_bind at 1, bind at 1, read_body.
  unfold mbind, M_bind, bind.
  by rewrite (tryParse_throw _ _ _ _ Hp).
Qed.

Lemma normalize_client_ok ms c0 s :
  parseCompactConvo (clientArgs (st_body s)) = Normal c0 →
  normalize ms s
  = match enforcing ms with
    | Some l =>
        enforceSpec l (get (st_body s) "endpoint") (get (st_body s) "endpointType")
          c0 (log s [EvParse (clientArgs (st_body s))])
    | None => (Val c0, log s [EvParse (clientArgs (st_body s))])
    end.
Proof.
  intros Hp. unfold normalize.
  unfold mbind at 1, M_bind at 1, bind at 1, read_body.
  unfold mbind, M_bind, bind.
  rewrite (tryParse_ok _ _ _ _ Hp). by destruct (enforcing ms).
Qed.

(** Every way [normalize] can end. *)
Lemma normalize_cases ms s :
  let a := clientArgs (st_body s) in
  (∃ e, parseCompactConvo a = Throw e ∧
        normalize ms s = (Ret, log s [EvParse a; EvHandleError "Error parsing conversation"]))
  ∨ (∃ c0, parseCompactConvo a = Normal c0 ∧ enforcing ms = None ∧
        normalize ms s = (Val c0, log s [EvParse a]))
  ∨ (∃ c0 l text, parseCompactConvo a = Normal c0 ∧ enforcing ms = Some l ∧
        text ∈ ["No model spec selected"; "Invalid model spec";
                "Model spec mismatch"; toolsMessage] ∧
        normalize ms s = (Ret, log s [EvParse a; EvHandleError text]))
  ∨ (∃ c0 l cs, parseCompactConvo a = Normal c0 ∧ enforcing ms = Some l ∧
        truthy (get c0 "spec") = true ∧ findSpec l (get c0 "spec") = Some cs ∧
        endpointMismatch (get (st_body s) "endpoint") cs = false ∧
        toolsViolation cs = false ∧
        ((∃ e, parseCompactConvo (presetArgs (st_body s) cs) = Throw e ∧
               normalize ms s
               = (Ret, log s [EvParse a; EvParse (presetArgs (st_body s) cs);
                              EvHandleError "Error parsing model spec"]))
         ∨ (∃ c, parseCompactConvo (presetArgs (st_body s) cs) = Normal c ∧
               normalize ms s
               = (Val c, log s [EvParse a; EvParse (presetArgs (st_body s) cs)])))).
Proof.
  intros a. subst a.
  destruct (parseCompactConvo (clientArgs (st_body s))) as [c0|e] eqn:Hp.
  2:{ left. exists e. split; [done|]. by apply (normalize_client_throw ms e). }
  right. rewrite (normalize_client_ok ms c0 s Hp).
  destruct (enforcing ms) as [l|] eqn:He.
  2:{ left. by exists c0. }
  right.
  destruct (truthy (get c0 "spec")) eqn:Hs.
  2:{ left. exists c0, l, "No model spec selected". repeat split; try done.
      - rewrite !elem_of_cons; tauto.
      - rewrite enforceSpec_no_spec by done. by rewrite log_log. }
  destruct (findSpec l (get c0 "spec")) as [cs|] eqn:Hf.
  2:{ left. exists c0, l, "Invalid model spec". repeat split; try done.
      - rewrite !elem_of_cons; tauto.
      - rewrite enforceSpec_invalid by done. by rewrite log_log. }
  destruct (endpointMismatch (get (st_body s) "endpoint") cs) eqn:Hm.
  { left. exists c0, l, "Model spec mismatch". repeat split; try done.
    - rewrite !elem_of_cons; tauto.
    - rewrite (enforceSpec_mismatch _ _ _ _ cs) by done. by rewrite log_log. }
  destruct (toolsViolation cs) eqn:Ht.
  { left. exists c0, l, toolsMessage. repeat split; try done.
    - rewrite !elem_of_cons; tauto.
    - rewrite (enforceSpec_tools _ _ _ _ cs) by done. by rewrite log_log. }
  right. exists c0, l, cs. repeat split; try done.
  rewrite (enforceSpec_reparse _ _ _ _ cs) by done.
  fold (presetArgs (st_body s) cs).
  destruct (parseCompactConvo (presetArgs (st_body s) cs)) as [c|e] eqn:Hp2.
  - right. exists c. split; [done|].
    rewrite (tryParse_ok _ _ c) by done. by rewrite log_log.
  - left. exists e. split; [done|].
    rewrite (tryParse_throw _ _ e) by done. by rewrite log_log.
Qed.

(** Reaching the dispatcher: the body is untouched and the trace holds
    one parser call, or two when a spec was enforced. *)
Lemma normalize_val_inv ms s0 c s :
  normalize ms s0 = (Val c, s) →
  st_body s = st_body s0 ∧
  ∃ evs, st_trace s = st_trace s0 ++ evs ∧
    builderCalls evs = [] ∧ inheritedCalls evs = [] ∧ handled evs = [] ∧
    assignments evs = [] ∧ fieldWrites evs = [] ∧ awaits evs = [] ∧
    nextCalls evs = [] ∧
    ((enforcing ms = None ∧
      parseCompactConvo (clientArgs (st_body s0)) = Normal c ∧
      evs = [EvParse (clientArgs (st_body s0))])
     ∨ (∃ l c0 cs, enforcing ms = Some l ∧
          parseCompactConvo (clientArgs (st_body s0)) = Normal c0 ∧
          truthy (get c0 "spec") = true ∧ findSpec l (get c0 "spec") = Some cs ∧
          endpointMismatch (get (st_body s0) "endpoint") cs = false ∧
          toolsViolation cs = false ∧
          parseCompactConvo (presetArgs (st_body s0) cs) = Normal c ∧
          evs = [EvParse (clientArgs (st_body s0));
                 EvParse (presetArgs (st_body s0) cs)])).
Proof.
  intros Hv.
  destruct (normalize_cases ms s0)
    as [(e & _ & Hn)|[(c0 & Hp & He & Hn)|[(c0 & l & text & _ & _ & _ & Hn)
       |(c0 & l & cs & Hp & He & Hs & Hf & Hm & Ht & [(e & _ & Hn)|(c' & Hp' & Hn)])]]];
    simpl in Hn; rewrite Hn in Hv; try discriminate;
    injection Hv as <- <-; (split; [done|]);
    (eexists; split; [reflexivity|]); repeat split; try done.
  - left. by repeat split.
  - right. exists l, c0, cs. by repeat split.
Qed.

(** ** Dispatch *)

Lemma dispatch_key_throw ms c s e :
  ToPropertyKey (dispatchIdentifier (st_body s)) = Throw e →
  dispatch ms c s = (Exc e, s).
Proof.
  intros Hk. unfold dispatch, dispatchIdentifier in *. mrun. by rewrite Hk.
Qed.

Lemma dispatch_undefined ms c s k :
  ToPropertyKey (dispatchIdentifier (st_body s)) = Normal k →
  lookupBuildFunction k = None →
  ∃ msg, dispatch ms c s = (Exc (TypeError msg), s).
Proof.
  intros Hk Hl. unfold dispatch, dispatchIdentifier in *. mrun.
  rewrite Hk. simpl. rewrite Hl. unfold callBuilder, callEndpointFn.
  destruct (isAgentsEndpoint _); mrun; eauto.
Qed.

Lemma dispatch_builder ms c s k fn :
  ToPropertyKey (dispatchIdentifier (st_body s)) = Normal k →
  buildFunction !! k = Some fn →
  dispatch ms c s
  = match buildOptions fn (builderArgs {| body := st_body s; modelSpecs := ms |} c) with
    | Normal o =>
        (Val tt,
         {| st_body := <["endpointOption" := JObj o]> (st_body s);
            st_trace := st_trace s ++
              [EvBuild fn (builderArgs {| body := st_body s; modelSpecs := ms |} c);
               EvSetEndpointOption (JObj o)] |})
    | Throw e =>
        (Exc e, log s [EvBuild fn (builderArgs {| body := st_body s; modelSpecs := ms |} c)])
    end.
Proof.
  intros Hk Hl. unfold dispatch, dispatchIdentifier, lookupBuildFunction in *.
  mrun. rewrite Hk. simpl. rewrite Hl.
  unfold callBuilder, callEndpointFn, builderArgs. simpl.
  destruct (isAgentsEndpoint _); mrun;
    destruct (buildOptions _ _); simpl; unfold log; simpl;
    by rewrite <- ?app_assoc.
Qed.

Lemma dispatch_inherited ms c s k f :
  ToPropertyKey (dispatchIdentifier (st_body s)) = Normal k →
  buildFunction !! k = None →
  objectPrototype k = Some f →
  dispatch ms c s
  = match f (builderArgs {| body := st_body s; modelSpecs := ms |} c) with
    | Normal v =>
        (Val tt,
         {| st_body := <["endpointOption" := v]> (st_body s);
            st_trace := st_trace s ++
              [EvCallInherited k (builderArgs {| body := st_body s; modelSpecs := ms |} c);
               EvSetEndpointOption v] |})
    | Throw e =>
        (Exc e, log s [EvCallInherited k
                         (builderArgs {| body := st_body s; modelSpecs := ms |} c)])
    end.
Proof.
  intros Hk Hl Hp. unfold dispatch, dispatchIdentifier, lookupBuildFunction in *.
  mrun. rewrite Hk. simpl. rewrite Hl, Hp. simpl.
  unfold callBuilder, callEndpointFn, builderArgs. simpl.
  destruct (isAgentsEndpoint _); mrun;
    destruct (f _); simpl; unfold log; simpl;
    by rewrite <- ?app_assoc.
Qed.

(** ** Enrichment *)

Lemma setOptionField_object k v s o :
  get (st_body s) "endpointOption" = JObj o →
  setOptionField k v s
  = (Val tt,
     {| st_body := <["endpointOption" := JObj (<[k := v]> o)]> (st_body s);
        st_trace := st_trace s ++ [EvSetOptionField k v] |}).
Proof. intros Ho. unfold setOptionField. mrun. by rewrite Ho. Qed.

(** A write through [endpointOption] lands, throws, or is ignored; it
    never ends the request and adds at most its own event. *)
Lemma setOptionField_frame k v s r s' :
  setOptionField k v s = (r, s') →
  r ≠ Ret ∧
  ∃ evs, st_trace s' = st_trace s ++ evs ∧
    (evs = [] ∨ evs = [EvSetOptionField k v]).
Proof.
  unfold setOptionField. mrun.
  destruct (get (st_body s) "endpointOption"); intros [= <- <-];
    (split; [done|]); simpl;
    first [ exists []; split; [by rewrite app_nil_r | by left]
          | eexists; split; [reflexivity | by right] ].
Qed.

Lemma enrich_object ms s o :
  get (st_body s) "endpointOption" = JObj o →
  enrich ms s
  = let r := {| body := st_body s; modelSpecs := ms |} in
    let files := get (st_body s) "files" in
    match settle (getModelsConfig r) with
    | Throw e => (Exc e, log s [EvGetModelsConfig r; EvAwait (getModelsConfig r)])
    | Normal mc =>
        if truthy files
        then (Val tt,
              {| st_body :=
                   <["endpointOption" :=
                       JObj (<["attachments" := JPromise (processFiles files)]>
                             (<["modelsConfig" := mc]> o))]> (st_body s);
                 st_trace := st_trace s ++
                   [EvGetModelsConfig r; EvAwait (getModelsConfig r);
                    EvSetOptionField "modelsConfig" mc;
                    EvProcessFiles files;
                    EvSetOptionField "attachments" (JPromise (processFiles files));
                    EvNext] |})
        else (Val tt,
              {| st_body := <["endpointOption" := JObj (<["modelsConfig" := mc]> o)]> (st_body s);
                 st_trace := st_trace s ++
                   [EvGetModelsConfig r; EvAwait (getModelsConfig r);
                    EvSetOptionField "modelsConfig" mc; EvNext] |})
    end.
Proof.
  intros Ho. unfold enrich.
  unfold mbind, M_bind, bind, read_body, emit, lift. simpl.
  destruct (settle _) as [mc|e]; simpl.
  2:{ unfold throw, log. simpl. by rewrite <- app_assoc. }
  unfold mret, M_ret, ret.
  rewrite (setOptionField_object _ _ _ o) by done. simpl.
  rewrite get_insert_ne by done.
  destruct (truthy (get (st_body s) "files")); simpl.
  - rewrite (setOptionField_object _ _ _ (<["modelsConfig" := mc]> o))
      by (simpl; apply get_insert_eq).
    simpl. rewrite insert_insert_eq. by rewrite <- !app_assoc.
  - by rewrite <- !app_assoc.
Qed.

(** What enrichment can add to the trace, however it ends. *)
Lemma enrich_frame ms s r s' :
  enrich ms s = (r, s') →
  r ≠ Ret ∧
  ∃ evs, st_trace s' = st_trace s ++ evs ∧
    handled evs = [] ∧ parses evs = [] ∧ builderCalls evs = [] ∧
    inheritedCalls evs = [] ∧ assignments evs = [] ∧
    (nextCalls evs ≠ [] → r = Val tt).
Proof.
  unfold enrich. unfold mbind, M_bind, bind, read_body, emit, lift. simpl.
  destruct (settle _) as [mc|e]; simpl.
  2:{ unfold throw. intros [= <- <-]. split; [done|].
      eexists. split; [simpl; rewrite <- ?app_assoc; reflexivity|].
      by repeat split. }
  unfold mret, M_ret, ret.
  match goal with
  | |- context [setOptionField ?k ?v ?s0] =>
      destruct (setOptionField k v s0) as [r1 s1] eqn:H1;
      destruct (setOptionField_frame _ _ _ _ _ H1) as (Hr1 & ev1 & Ht1 & Hev1)
  end; simpl in Ht1.
  destruct r1 as [[]| |e1]; [|done|].
  2:{ intros [= <- <-]. split; [done|].
      eexists. split; [rewrite Ht1, <- !app_assoc; reflexivity|].
      destruct Hev1 as [-> | ->]; by repeat split. }
  destruct (truthy (get (st_body s1) "files")); simpl.
  - match goal with
    | |- context [setOptionField ?k ?v ?s0] =>
        destruct (setOptionField k v s0) as [r2 s2] eqn:H2;
        destruct (setOptionField_frame _ _ _ _ _ H2) as (Hr2 & ev2 & Ht2 & Hev2)
    end; simpl in Ht2.
    destruct r2 as [[]| |e2]; [|done|]; intros [= <- <-]; (split; [done|]);
      (eexists; split; [simpl; rewrite ?Ht2, Ht1, <- !app_assoc; reflexivity|]);
      destruct Hev1 as [-> | ->], Hev2 as [-> | ->]; by repeat split.
  - intros [= <- <-]. split; [done|].
    eexists. split; [simpl; rewrite Ht1, <- !app_assoc; reflexivity|].
    destruct Hev1 as [-> | ->]; by repeat split.
Qed.

(** What dispatching can add to the trace, however it ends. *)
Lemma dispatch_frame ms c s r s' :
  dispatch ms c s = (r, s') →
  r ≠ Ret ∧
  ∃ evs, st_trace s' = st_trace s ++ evs ∧
    handled evs = [] ∧ parses evs = [] ∧ fieldWrites evs = [] ∧
    awaits evs = [] ∧ nextCalls evs = [] ∧
    ((r = Val tt ∧ ∃ v, assignments evs = [v] ∧
                         st_body s' = <["endpointOption" := v]> (st_body s))
     ∨ ((∃ e, r = Exc e) ∧ assignments evs = [] ∧ st_body s' = st_body s)).
Proof.
  destruct (ToPropertyKey (dispatchIdentifier (st_body s))) as [k|e] eqn:Hk.
  2:{ rewrite (dispatch_key_throw _ _ _ e) by done. intros [= <- <-].
      split; [done|]. exists []. rewrite app_nil_r. repeat split; eauto. }
  destruct (buildFunction !! k) as [fn|] eqn:Hb.
  { rewrite (dispatch_builder _ _ _ k fn) by done.
    destruct (buildOptions _ _) as [o|e]; intros [= <- <-]; (split; [done|]);
      eexists; (split; [simpl; reflexivity|]); repeat split; eauto. }
  destruct (objectPrototype k) as [f|] eqn:Hp.
  { rewrite (dispatch_inherited _ _ _ k f) by done.
    destruct (f _) as [v|e]; intros [= <- <-]; (split; [done|]);
      eexists; (split; [simpl; reflexivity|]); repeat split; eauto. }
  destruct (dispatch_undefined ms c s k) as [msg ->]; [done| |].
  { unfold lookupBuildFunction. by rewrite Hb, Hp. }
  intros [= <- <-]. split; [done|]. exists []. rewrite app_nil_r.
  repeat split; eauto.
Qed.

(** ** Composition *)

Lemma pipeline_ret req s :
  normalize (modelSpecs req) (initial req) = (Ret, s) →
  buildEndpointOption req = (Ret, s).
Proof.
  intros Hn. unfold buildEndpointOption, pipeline.
  unfold mbind at 1, M_bind at 1, bind at 1. by rewrite Hn.
Qed.

Lemma pipeline_val req c s :
  normalize (modelSpecs req) (initial req) = (Val c, s) →
  buildEndpointOption req
  = match dispatch (modelSpecs req) c s with
    | (Val _, s') => enrich (modelSpecs req) s'
    | (Ret, s') => (Ret, s')
    | (Exc e, s') => (Exc e, s')
    end.
Proof.
  intros Hn. unfold buildEndpointOption, pipeline.
  unfold mbind at 1, M_bind at 1, bind at 1. rewrite Hn.
  unfold mbind, M_bind, bind. by destruct (dispatch _ _ _) as [[| |] ?].
Qed.

(** A request that reaches the dispatcher with an identifier that is a
    key of the table: the builder stored there is the one function
    called, once, on the normalized conversation. *)
Lemma builder_called req c k fn :
  normalized req c →
  ToPropertyKey (dispatchIdentifier (body req)) = Normal k →
  buildFunction !! k = Some fn →
  let st := (buildEndpointOption req).2 in
  builderCalls (st_trace st) = [(fn, builderArgs req c)] ∧
  inheritedCalls (st_trace st) = [] ∧
  handled (st_trace st) = [].
Proof.
  intros [s Hn] Hk Hb st. subst st.
  rewrite (pipeline_val _ _ _ Hn).
  apply normalize_val_inv in Hn
    as (Hbody & evs & Htr & Hbc & Hic & Hh & _ & _ & _ & _ & _).
  simpl in Hbody, Htr.
  rewrite (dispatch_builder _ _ _ k fn) by (by rewrite ?Hbody).
  rewrite Hbody.
  replace {| body := body req; modelSpecs := modelSpecs req |} with req
    by (by destruct req).
  destruct (buildOptions fn _) as [o|e]; simpl.
  { match goal with
    | |- context [enrich ?ms ?s0] =>
        destruct (enrich ms s0) as [re se] eqn:He;
        destruct (enrich_frame _ _ _ _ He)
          as (_ & evs' & Htr' & Hh' & _ & Hbc' & Hic' & _ & _)
    end.
    simpl in *. rewrite Htr', Htr. autorewrite with trace_proj. simpl.
    by rewrite Hbc, Hbc', Hic, Hic', Hh, Hh'. }
  rewrite Htr. autorewrite with trace_proj. simpl.
  by rewrite Hbc, Hic, Hh.
Qed.

(** ** The option object is written once, and only on success *)

(** C3. For every request, [req.body.endpointOption] is assigned at most
    once.  Whenever the middleware ends through [handleError] (the
    client parse error, no spec selected, invalid spec, spec mismatch,
    tools not allowed, preset parse error: these are all its
    [handleError] calls), it has assigned nothing, written no field,
    called no builder, left the body as it was and not called [next].
    [next] is called only by a run that went through to its end, so no
    later stage sees a half-built [endpointOption]. *)
Theorem endpointOption_assigned_once_and_never_on_failure (req : Request) :
  let r := (buildEndpointOption req).1 in
  let st := (buildEndpointOption req).2 in
  length (assignments (st_trace st)) ≤ 1 ∧
  (handled (st_trace st) ≠ [] → r = Ret) ∧
  (r = Ret →
     ∃ text, text ∈ failureMessages ∧
       handled (st_trace st) = [text] ∧
       assignments (st_trace st) = [] ∧
       fieldWrites (st_trace st) = [] ∧
       builderCalls (st_trace st) = [] ∧
       nextCalls (st_trace st) = [] ∧
       st_body st = body req) ∧
  (nextCalls (st_trace st) ≠ [] →
     r = Val tt ∧ length (assignments (st_trace st)) = 1).
Proof.
  intros r st. subst r st.
  destruct (normalize_cases (modelSpecs req) (initial req))
    as [(e & _ & Hn)|[(c0 & _ & _ & Hn)|[(c0 & l & text & _ & _ & Ht & Hn)
       |(c0 & l & cs & _ & _ & _ & _ & _ & _ & [(e & _ & Hn)|(c & _ & Hn)])]]];
    simpl in Hn.
  (* the three groups of [handleError] exits *)
  1,3,4: rewrite (pipeline_ret _ _ Hn); simpl;
    (split; [lia|]); (split; [done|]); (split; [|done]); intros _;
    eexists; (split; [|by repeat split]);
    unfold failureMessages; rewrite ?elem_of_cons in *; tauto.
  (* the two ways to reach the dispatcher *)
  all: rewrite (pipeline_val _ _ _ Hn);
    destruct (dispatch _ _ _) as [rd sd] eqn:Hd;
    destruct (dispatch_frame _ _ _ _ _ Hd)
      as (Hrd & evs & Htr & Hh & _ & Hfw & _ & Hnx & Hcase);
    simpl in Htr;
    destruct Hcase as [(-> & v & Ha & _)|((e & ->) & Ha & _)].
  2,4: simpl; rewrite Htr; autorewrite with trace_proj; simpl;
    rewrite Hh, Ha, Hnx; simpl; repeat split; (lia || done).
  all: destruct (enrich _ sd) as [re se] eqn:He;
    destruct (enrich_frame _ _ _ _ He)
      as (Hre & evs' & Htr' & Hh' & _ & _ & _ & Ha' & Hnx');
    simpl; rewrite Htr', Htr; autorewrite with trace_proj; simpl;
    rewrite Hh, Hh', Ha, Ha', Hnx; simpl;
    repeat split; try (lia || done); auto.
Qed.

(** ** Spec enforcement *)

(** The enforcer's checks pass for the selected spec: the pipeline
    reaches the dispatcher with the re-normalized preset. *)
Lemma enforced_normalized req cs c :
  selects req cs →
  endpointMismatch (get (body req) "endpoint") cs = false →
  toolsViolation cs = false →
  parseCompactConvo (presetArgs (body req) cs) = Normal c →
  normalize (modelSpecs req) (initial req)
  = (Val c, log (initial req) [EvParse (clientArgs (body req));
                               EvParse (presetArgs (body req) cs)]).
Proof.
  intros (l & c0 & He & Hp & Hs & Hf) Hm Ht Hp'.
  rewrite (normalize_client_ok _ c0) by done. rewrite He. simpl.
  rewrite (enforceSpec_reparse _ _ _ _ cs) by done.
  fold (presetArgs (body req) cs).
  rewrite (tryParse_ok _ _ c) by done. by rewrite log_log.
Qed.

(** C1. When enforcement is active and every check passes for the spec
    the request selects, the parser is called a second time on the
    preset of that spec, and the conversation handed to the selected
    builder is the result of that second call.  It is a function of the
    preset and of the request's [endpoint] and [endpointType] only:
    nothing else the client sent reaches the builder's conversation. *)
Theorem enforced_builder_receives_preset req cs c k fn :
  selects req cs →
  endpointMismatch (get (body req) "endpoint") cs = false →
  toolsViolation cs = false →
  parseCompactConvo (presetArgs (body req) cs) = Normal c →
  ToPropertyKey (dispatchIdentifier (body req)) = Normal k →
  buildFunction !! k = Some fn →
  let st := (buildEndpointOption req).2 in
  parses (st_trace st) = [clientArgs (body req); presetArgs (body req) cs] ∧
  pa_conversation (presetArgs (body req) cs) = preset cs ∧
  builderCalls (st_trace st) = [(fn, builderArgs req c)] ∧
  AConvo c ∈ builderArgs req c.
Proof.
  intros Hsel Hm Ht Hp Hk Hb st.
  pose proof (enforced_normalized req cs c Hsel Hm Ht Hp) as Hn.
  assert (Hnorm : normalized req c) by (by eexists).
  destruct (builder_called req c k fn Hnorm Hk Hb) as (Hbc & _ & _).
  split; [|split; [done|split; [done|]]].
  2:{ unfold builderArgs. rewrite elem_of_app, !elem_of_cons. tauto. }
  subst st. rewrite (pipeline_val _ _ _ Hn).
  destruct (dispatch _ _ _) as [rd sd] eqn:Hd.
  destruct (dispatch_frame _ _ _ _ _ Hd)
    as (_ & evs & Htr & _ & Hps & _ & _ & _ & Hcase). simpl in Htr.
  destruct rd as [[]| |e]; simpl.
  - destruct (enrich _ sd) as [re se] eqn:He.
    destruct (enrich_frame _ _ _ _ He) as (_ & evs' & Htr' & _ & Hps' & _).
    simpl. rewrite Htr', Htr. autorewrite with trace_proj. simpl.
    by rewrite Hps, Hps'.
  - by destruct Hcase as [[? _]|[[? ?] _]].
  - rewrite Htr. autorewrite with trace_proj. simpl. by rewrite Hps.
Qed.

(** C4. Once the client payload has been parsed, the Spec Enforcer acts
    if and only if the catalog is present with its [enforce] flag set.
    When it is not, the pipeline reaches the dispatcher with the
    client-parsed conversation itself, whatever the payload says about
    [spec]: the parser was called once, nothing was reported, and the
    builder the identifier selects is called on that conversation. *)
Theorem enforcer_runs_iff_catalog_enforced req c0 :
  parseCompactConvo (clientArgs (body req)) = Normal c0 →
  let st := (buildEndpointOption req).2 in
  (enforcerActed (st_trace st) = true ↔ catalogEnforced (modelSpecs req)) ∧
  (¬ catalogEnforced (modelSpecs req) →
     normalized req c0 ∧
     parses (st_trace st) = [clientArgs (body req)] ∧
     handled (st_trace st) = [] ∧
     ∀ k fn,
       ToPropertyKey (dispatchIdentifier (body req)) = Normal k →
       buildFunction !! k = Some fn →
       builderCalls (st_trace st) = [(fn, builderArgs req c0)]).
Proof.
  intros Hp st.
  assert (Hen : catalogEnforced (modelSpecs req) ↔ is_Some (enforcing (modelSpecs req))).
  { unfold catalogEnforced, enforcing. split.
    - intros (m & l & -> & -> & ->). eauto.
    - destruct (modelSpecs req) as [m|]; [|by intros [? ?]].
      destruct (list_ m) as [l|] eqn:Hl; [|by intros [? ?]].
      destruct (truthy (enforce m)) eqn:Ht; [|by intros [? ?]].
      intros _. by exists m, l. }
  assert (Htail : ∀ c s evs,
    normalize (modelSpecs req) (initial req) = (Val c, s) →
    st_trace s = evs →
    ∃ rest, st_trace st = evs ++ rest ∧ parses rest = [] ∧ handled rest = [] ∧
      match rest with
      | EvParse _ :: _ | EvHandleError _ :: _ => False
      | _ => True
      end).
  { intros c s evs Hn <-. subst st. rewrite (pipeline_val _ _ _ Hn).
    destruct (ToPropertyKey (dispatchIdentifier (st_body s))) as [k|e] eqn:Hk.
    2:{ rewrite (dispatch_key_throw _ _ _ e) by done. exists [].
        by rewrite app_nil_r. }
    assert (Henr : ∀ s0 : St,
      ∃ rest, st_trace (enrich (modelSpecs req) s0).2 = st_trace s0 ++ rest ∧
        parses rest = [] ∧ handled rest = []).
    { intros s0. destruct (enrich _ s0) as [re se] eqn:He.
      destruct (enrich_frame _ _ _ _ He) as (_ & evs' & Htr' & Hh' & Hps' & _).
      by exists evs'. }
    destruct (buildFunction !! k) as [fn|] eqn:Hb.
    { rewrite (dispatch_builder _ _ _ k fn) by done.
      destruct (buildOptions _ _) as [o|e]; simpl.
      - match goal with
        | |- context [enrich ?ms ?s0] => destruct (Henr s0) as (rest & -> & ? & ?)
        end. simpl. eexists. rewrite <- app_assoc. split; [reflexivity|].
        autorewrite with trace_proj. simpl. by repeat split.
      - eexists. by split. }
    destruct (objectPrototype k) as [f|] eqn:Hpr.
    { rewrite (dispatch_inherited _ _ _ k f) by done.
      destruct (f _) as [v|e]; simpl.
      - match goal with
        | |- context [enrich ?ms ?s0] => destruct (Henr s0) as (rest & -> & ? & ?)
        end. simpl. eexists. rewrite <- app_assoc. split; [reflexivity|].
        autorewrite with trace_proj. simpl. by repeat split.
      - eexists. by split. }
    destruct (dispatch_undefined (modelSpecs req) c s k) as [msg ->]; [done| |].
    { unfold lookupBuildFunction. by rewrite Hb, Hpr. }
    exists []. by rewrite app_nil_r. }
  destruct (normalize_cases (modelSpecs req) (initial req))
    as [(e & Hp' & Hn)|[(c1 & Hp' & He & Hn)|[(c1 & l & text & Hp' & He & _ & Hn)
       |(c1 & l & cs & Hp' & He & _ & _ & _ & _ & [(e & _ & Hn)|(c & _ & Hn)])]]];
    simpl in Hp', Hn; rewrite Hp in Hp'; try discriminate;
    injection Hp' as <-.
  - (* enforcement off *)
    destruct (Htail _ _ _ Hn eq_refl) as (rest & Htr & Hps & Hh & Hhd).
    simpl in Htr. split.
    + rewrite Hen, He. split; [|by intros [? ?]].
      rewrite Htr. simpl. by destruct rest as [|[] ?].
    + intros _. split; [by eexists|]. rewrite Htr. simpl.
      autorewrite with trace_proj. rewrite Hps, Hh.
      split; [done|]. split; [done|].
      intros k fn Hk Hb.
      assert (Hnorm : normalized req c0) by (by eexists).
      destruct (builder_called req c0 k fn Hnorm Hk Hb) as (Hbc & _).
      subst st. by rewrite Htr in Hbc.
  - (* a policy error *)
    subst st. rewrite (pipeline_ret _ _ Hn). simpl. split.
    + rewrite Hen, He. by split; eauto.
    + intros Hno. exfalso. apply Hno. rewrite Hen, He. eauto.
  - (* the preset does not parse *)
    subst st. rewrite (pipeline_ret _ _ Hn). simpl. split.
    + rewrite Hen, He. by split; eauto.
    + intros Hno. exfalso. apply Hno. rewrite Hen, He. eauto.
  - (* the preset replaces the payload *)
    destruct (Htail _ _ _ Hn eq_refl) as (rest & Htr & _). simpl in Htr. split.
    + rewrite Hen, He, Htr. by split; eauto.
    + intros Hno. exfalso. apply Hno. rewrite Hen, He. eauto.
Qed.

(** C5. Under enforcement, when the request selects a spec of the
    catalog and the request's [endpoint] is not strictly equal to the
    [endpoint] of that spec's preset, the middleware ends with
    [Model spec mismatch]; no function of the table (nor anything else)
    is called and the body is left as it was. *)
Theorem spec_endpoint_mismatch_rejected req cs :
  selects req cs →
  endpointMismatch (get (body req) "endpoint") cs = true →
  ∃ st, buildEndpointOption req = (Ret, st) ∧
    st_trace st = [EvParse (clientArgs (body req));
                   EvHandleError "Model spec mismatch"] ∧
    builderCalls (st_trace st) = [] ∧
    inheritedCalls (st_trace st) = [] ∧
    st_body st = body req.
Proof.
  intros (l & c0 & He & Hp & Hs & Hf) Hm.
  eexists. split.
  - apply pipeline_ret. rewrite (normalize_client_ok _ c0) by done.
    rewrite He. simpl. by rewrite (enforceSpec_mismatch _ _ _ _ cs) by done.
  - by repeat split.
Qed.

(** C6, amended. Under enforcement, when the request selects a spec of
    the catalog, the request's [endpoint] equals the [endpoint] of that
    spec's preset, and the preset declares [tools] although its endpoint
    is not [gptPlugins], the middleware ends with the tools error, whose
    text contains the [gptPlugins] identifier; nothing is called. *)
Theorem tools_on_other_endpoint_rejected req cs :
  selects req cs →
  endpointMismatch (get (body req) "endpoint") cs = false →
  truthy (get (preset cs) "tools") = true →
  strict_eq (get (preset cs) "endpoint") (JStr (gptPlugins EModelEndpoint)) = false →
  ∃ st, buildEndpointOption req = (Ret, st) ∧
    st_trace st = [EvParse (clientArgs (body req)); EvHandleError toolsMessage] ∧
    (∃ pre post, toolsMessage = pre +:+ gptPlugins EModelEndpoint +:+ post) ∧
    builderCalls (st_trace st) = [] ∧
    inheritedCalls (st_trace st) = [] ∧
    st_body st = body req.
Proof.
  intros (l & c0 & He & Hp & Hs & Hf) Hm Ht Hg.
  assert (Hv : toolsViolation cs = true).
  { unfold toolsViolation. by rewrite Hg, Ht. }
  eexists. split.
  - apply pipeline_ret. rewrite (normalize_client_ok _ c0) by done.
    rewrite He. simpl. by rewrite (enforceSpec_tools _ _ _ _ cs) by done.
  - repeat split; try done.
    exists ("Only the " +:+ dquote),
      (dquote +:+ " endpoint can have tools defined in the preset").
    unfold toolsMessage. reflexivity.
Qed.

(** ** Dispatch through the table *)

(** When the members of [EModelEndpoint] are pairwise distinct, every
    key of the literal keeps the builder written next to it. *)
Lemma buildFunction_entries :
  NoDup (endpoint_names EModelEndpoint) →
  buildFunction !! openAI EModelEndpoint = Some openAI_buildOptions ∧
  buildFunction !! google EModelEndpoint = Some google_buildOptions ∧
  buildFunction !! custom EModelEndpoint = Some custom_buildOptions ∧
  buildFunction !! agents EModelEndpoint = Some agents_buildOptions ∧
  buildFunction !! bedrock EModelEndpoint = Some bedrock_buildOptions ∧
  buildFunction !! azureOpenAI EModelEndpoint = Some openAI_buildOptions ∧
  buildFunction !! anthropic EModelEndpoint = Some anthropic_buildOptions ∧
  buildFunction !! gptPlugins EModelEndpoint = Some gptPlugins_buildOptions ∧
  buildFunction !! assistants EModelEndpoint = Some assistants_buildOptions ∧
  buildFunction !! azureAssistants EModelEndpoint = Some azureAssistants_buildOptions.
Proof.
  unfold endpoint_names. intros Hnd.
  repeat (apply NoDup_cons in Hnd as [? Hnd]).
  repeat match goal with
         | H : _ ∉ _ :: _ |- _ => apply not_elem_of_cons in H as [? ?]
         end.
  unfold buildFunction. repeat split; by simplify_map_eq.
Qed.

(** C7. A request that reaches the dispatcher, whose identifier is a
    key of the table: the builder stored under that key is the one
    function called, exactly once, and the conversation among its
    arguments is the normalized conversation itself.  The identifier is
    read off the request here, not off the dispatcher: it is
    [endpointType] when that is present (neither [undefined] nor
    [null]) and [endpoint] otherwise.  The Azure variant and the base
    OpenAI provider are mapped to the same builder. *)
Theorem dispatch_calls_mapped_builder req c k fn :
  normalized req c →
  let endpoint := get (body req) "endpoint" in
  let endpointType := get (body req) "endpointType" in
  ToPropertyKey (match endpointType with
                 | JUndefined | JNull => endpoint
                 | _ => endpointType
                 end) = Normal k →
  buildFunction !! k = Some fn →
  let st := (buildEndpointOption req).2 in
  lookupBuildFunction k = Some (Builder fn) ∧
  builderCalls (st_trace st) = [(fn, builderArgs req c)] ∧
  inheritedCalls (st_trace st) = [] ∧
  (∃ pre post, builderArgs req c = pre ++ AConvo c :: post ∧
     ∀ c', AConvo c' ∈ pre ++ post → False) ∧
  (NoDup (endpoint_names EModelEndpoint) →
     buildFunction !! azureOpenAI EModelEndpoint = Some openAI_buildOptions ∧
     buildFunction !! openAI EModelEndpoint = Some openAI_buildOptions).
Proof.
  intros Hn endpoint endpointType Hk Hb st.
  assert (Hid : dispatchIdentifier (body req)
                = match endpointType with
                  | JUndefined | JNull => endpoint
                  | _ => endpointType
                  end).
  { unfold dispatchIdentifier. fold endpoint endpointType.
    by destruct endpointType. }
  rewrite <- Hid in Hk.
  destruct (builder_called req c k fn Hn Hk Hb) as (Hbc & Hic & _).
  split.
  { unfold lookupBuildFunction. by rewrite Hb. }
  split; [done|]. split; [done|]. split.
  - unfold builderArgs.
    exists ((if isAgentsEndpoint (get (body req) "endpoint") then [AReq req] else [])
              ++ [AVal (get (body req) "endpoint")]),
      [AVal (get (body req) "endpointType")].
    split; [by rewrite <- app_assoc|].
    intros c'. rewrite !elem_of_app, !elem_of_cons.
    destruct (isAgentsEndpoint _);
      rewrite ?elem_of_cons, ?elem_of_nil; intuition discriminate.
  - intros Hnd. by destruct (buildFunction_entries Hnd) as (? & _ & _ & _ & _ & ? & _).
Qed.

(** C10. The function found in the table is called with [req] in front
    of its arguments exactly when [isAgentsEndpoint] accepts the
    request's [endpoint]; [endpointType] plays no part in that, although
    it is [endpointType] that selects the function whenever it is
    present.  So a request whose [endpointType] is the agents identifier
    and whose [endpoint] is not an agents endpoint has the agents
    builder called on [(endpoint, parsedBody, endpointType)], without
    [req]. *)
Theorem request_binding_follows_endpoint_only req c :
  normalized req c →
  let st := (buildEndpointOption req).2 in
  let endpoint := get (body req) "endpoint" in
  let endpointType := get (body req) "endpointType" in
  (∀ k fn,
     ToPropertyKey (dispatchIdentifier (body req)) = Normal k →
     buildFunction !! k = Some fn →
     ∃ args, builderCalls (st_trace st) = [(fn, args)] ∧
       (isAgentsEndpoint endpoint = true →
          args = [AReq req; AVal endpoint; AConvo c; AVal endpointType]) ∧
       (isAgentsEndpoint endpoint = false →
          args = [AVal endpoint; AConvo c; AVal endpointType])) ∧
  (∀ t, endpointType = JStr t → ToPropertyKey (dispatchIdentifier (body req)) = Normal t) ∧
  (NoDup (endpoint_names EModelEndpoint) →
   endpointType = JStr (agents EModelEndpoint) →
   isAgentsEndpoint endpoint = false →
   builderCalls (st_trace st)
   = [(agents_buildOptions, [AVal endpoint; AConvo c; AVal endpointType])]).
Proof.
  intros Hn st endpoint endpointType.
  assert (Hkey : ∀ t, endpointType = JStr t →
            ToPropertyKey (dispatchIdentifier (body req)) = Normal t).
  { intros t Ht. unfold dispatchIdentifier. fold endpointType. by rewrite Ht. }
  assert (Hcall : ∀ k fn,
     ToPropertyKey (dispatchIdentifier (body req)) = Normal k →
     buildFunction !! k = Some fn →
     ∃ args, builderCalls (st_trace st) = [(fn, args)] ∧
       (isAgentsEndpoint endpoint = true →
          args = [AReq req; AVal endpoint; AConvo c; AVal endpointType]) ∧
       (isAgentsEndpoint endpoint = false →
          args = [AVal endpoint; AConvo c; AVal endpointType])).
  { intros k fn Hk Hb.
    destruct (builder_called req c k fn Hn Hk Hb) as (Hbc & _).
    exists (builderArgs req c). split; [done|].
    unfold builderArgs. fold endpoint endpointType.
    by split; intros ->. }
  split; [done|]. split; [done|].
  intros Hnd Ht Hag.
  destruct (buildFunction_entries Hnd) as (_ & _ & _ & Hb & _).
  destruct (Hcall _ _ (Hkey _ Ht) Hb) as (args & -> & _ & Hargs).
  by rewrite (Hargs Hag).
Qed.

(** C9, amended. A request that reaches the dispatcher with an
    identifier that is neither a key of the table nor the name of a
    member of [Object.prototype]: the lookup gives [undefined], the call
    throws a [TypeError], and the middleware has reported nothing
    through [handleError], called nothing and assigned nothing. *)
Theorem unknown_identifier_throws req c k :
  normalized req c →
  ToPropertyKey (dispatchIdentifier (body req)) = Normal k →
  buildFunction !! k = None →
  objectPrototype k = None →
  lookupBuildFunction k = None ∧
  ∃ msg st, buildEndpointOption req = (Exc (TypeError msg), st) ∧
    handled (st_trace st) = [] ∧
    builderCalls (st_trace st) = [] ∧
    inheritedCalls (st_trace st) = [] ∧
    assignments (st_trace st) = [] ∧
    nextCalls (st_trace st) = [] ∧
    st_body st = body req.
Proof.
  intros [s Hn] Hk Hb Hp.
  assert (Hl : lookupBuildFunction k = None).
  { unfold lookupBuildFunction. by rewrite Hb, Hp. }
  split; [done|].
  rewrite (pipeline_val _ _ _ Hn).
  apply normalize_val_inv in Hn
    as (Hbody & evs & Htr & Hbc & Hic & Hh & Ha & _ & _ & Hnx & _).
  simpl in Hbody, Htr.
  destruct (dispatch_undefined (modelSpecs req) c s k) as [msg ->];
    [by rewrite Hbody|done|].
  exists msg, s. rewrite Htr. by repeat split.
Qed.

(** ** The two parser calls *)

(** In every run the parser is called on the client payload and, at
    most, once more on a preset of the catalog, with the same
    [endpoint] and [endpointType]. *)
Lemma parser_calls req :
  let st := (buildEndpointOption req).2 in
  parses (st_trace st) = [clientArgs (body req)]
  ∨ ∃ cs, parses (st_trace st) = [clientArgs (body req); presetArgs (body req) cs].
Proof.
  intros st. subst st.
  destruct (normalize_cases (modelSpecs req) (initial req))
    as [(e & _ & Hn)|[(c0 & _ & _ & Hn)|[(c0 & l & text & _ & _ & _ & Hn)
       |(c0 & l & cs & _ & _ & _ & _ & _ & _ & [(e & _ & Hn)|(c & _ & Hn)])]]];
    simpl in Hn.
  1,3: rewrite (pipeline_ret _ _ Hn); by left.
  2: rewrite (pipeline_ret _ _ Hn); right; by exists cs.
  all: rewrite (pipeline_val _ _ _ Hn);
    destruct (dispatch _ _ _) as [rd sd] eqn:Hd;
    destruct (dispatch_frame _ _ _ _ _ Hd) as (_ & evs & Htr & _ & Hps & _);
    simpl in Htr;
    assert (Hfin : ∃ rest, parses rest = [] ∧
              st_trace (match rd with
                        | Val _ => enrich (modelSpecs req) sd
                        | Ret => (Ret, sd)
                        | Exc e => (Exc e, sd)
                        end).2 = st_trace sd ++ rest)
      by (destruct rd as [[]| |e]; simpl;
          [destruct (enrich _ sd) as [re se] eqn:He;
           destruct (enrich_frame _ _ _ _ He) as (_ & evs' & Htr' & _ & Hps' & _);
           by exists evs'
          |exists []; by rewrite app_nil_r
          |exists []; by rewrite app_nil_r]);
    destruct Hfin as (rest & Hrest & Hfin);
    replace (let (r, s') := (rd, sd) in
             match r with
             | Val _ => enrich (modelSpecs req) s'
             | Ret => (Ret, s')
             | Exc e => (Exc e, s')
             end)
      with (match rd with
            | Val _ => enrich (modelSpecs req) sd
            | Ret => (Ret, sd)
            | Exc e => (Exc e, sd)
            end) by done;
    rewrite Hfin, Htr; autorewrite with trace_proj; simpl; rewrite Hps, Hrest.
  - by left.
  - right. by exists cs.
Qed.

(** C8, amended. Both normalizations go through [parseCompactConvo]
    with an argument of the same shape, carrying the request's
    [endpoint] and [endpointType].  A failure of the first call ends the
    request with [Error parsing conversation]; a failure of the second
    ends it with [Error parsing model spec]; the two texts differ. *)
Theorem parse_failures_terminal_and_distinct req :
  let st := (buildEndpointOption req).2 in
  (∀ a, a ∈ parses (st_trace st) →
     pa_endpoint a = get (body req) "endpoint" ∧
     pa_endpointType a = get (body req) "endpointType") ∧
  (∀ e, parseCompactConvo (clientArgs (body req)) = Throw e →
     buildEndpointOption req
     = (Ret, {| st_body := body req;
                st_trace := [EvParse (clientArgs (body req));
                             EvHandleError "Error parsing conversation"] |})) ∧
  (∀ cs e, selects req cs →
     endpointMismatch (get (body req) "endpoint") cs = false →
     toolsViolation cs = false →
     parseCompactConvo (presetArgs (body req) cs) = Throw e →
     buildEndpointOption req
     = (Ret, {| st_body := body req;
                st_trace := [EvParse (clientArgs (body req));
                             EvParse (presetArgs (body req) cs);
                             EvHandleError "Error parsing model spec"] |})) ∧
  "Error parsing conversation" ≠ "Error parsing model spec".
Proof.
  intros st. split; [|split; [|split; [|done]]].
  - intros a Ha.
    destruct (parser_calls req) as [Hp|[cs Hp]]; fold st in Hp;
      rewrite Hp in Ha; rewrite ?elem_of_cons, elem_of_nil in Ha.
    + by destruct Ha as [->|[]].
    + by destruct Ha as [->|[->|[]]].
  - intros e Hp. apply pipeline_ret.
    by rewrite (normalize_client_throw _ e).
  - intros cs e (l & c0 & He & Hp & Hs & Hf) Hm Ht Hp'. apply pipeline_ret.
    rewrite (normalize_client_ok _ c0) by done. rewrite He. simpl.
    rewrite (enforceSpec_reparse _ _ _ _ cs) by done.
    fold (presetArgs (body req) cs).
    by rewrite (tryParse_throw _ _ e).
Qed.

(** ** Attachments *)

(** C2, amended. After a successful run that dispatched to a builder of
    the table, [endpointOption] is the builder's record with
    [modelsConfig] added, and [attachments] is written onto it exactly
    when [req.body.files] is truthy (any array counts, the empty one
    included).  When written it is the handle [processFiles] returned:
    the only promise awaited is that of [getModelsConfig], and nothing
    happens between storing the handle and calling [next]. *)
Theorem attachments_written_iff_files_truthy req k fn st :
  buildEndpointOption req = (Val tt, st) →
  ToPropertyKey (dispatchIdentifier (body req)) = Normal k →
  buildFunction !! k = Some fn →
  let files := get (body req) "files" in
  let handle := JPromise (processFiles files) in
  ∃ opts mc r,
    assignments (st_trace st) = [JObj opts] ∧
    awaits (st_trace st) = [getModelsConfig r] ∧
    (("attachments", handle) ∈ fieldWrites (st_trace st) ↔ truthy files = true) ∧
    if truthy files
    then get (st_body st) "endpointOption"
           = JObj (<["attachments" := handle]> (<["modelsConfig" := mc]> opts)) ∧
         fieldWrites (st_trace st) = [("modelsConfig", mc); ("attachments", handle)] ∧
         fileCalls (st_trace st) = [files] ∧
         ∃ t, st_trace st
              = t ++ [EvProcessFiles files; EvSetOptionField "attachments" handle; EvNext]
    else get (st_body st) "endpointOption" = JObj (<["modelsConfig" := mc]> opts) ∧
         fieldWrites (st_trace st) = [("modelsConfig", mc)] ∧
         fileCalls (st_trace st) = [].
Proof.
  intros Hrun Hk Hb files handle.
  destruct (normalize (modelSpecs req) (initial req)) as [[c| |e] s] eqn:Hn.
  2:{ rewrite (pipeline_ret _ _ Hn) in Hrun. discriminate. }
  2:{ exfalso.
      destruct (normalize_cases (modelSpecs req) (initial req))
        as [(? & _ & Hn')|[(? & _ & _ & Hn')|[(? & ? & ? & _ & _ & _ & Hn')
           |(? & ? & ? & _ & _ & _ & _ & _ & _ & [(? & _ & Hn')|(? & _ & Hn')])]]];
        simpl in Hn'; rewrite Hn' in Hn; discriminate. }
  rewrite (pipeline_val _ _ _ Hn) in Hrun.
  apply normalize_val_inv in Hn
    as (Hbody & evs & Htr & _ & _ & _ & Ha & Hfw & Haw & _ & Hev).
  simpl in Hbody, Htr.
  assert (Hfc : fileCalls evs = []).
  { by destruct Hev as [(_ & _ & ->)|(? & ? & ? & _ & _ & _ & _ & _ & _ & _ & ->)]. }
  rewrite (dispatch_builder _ _ _ k fn) in Hrun by (by rewrite ?Hbody).
  destruct (buildOptions fn _) as [o|e]; [|discriminate].
  rewrite (enrich_object _ _ o) in Hrun by (simpl; apply get_insert_eq).
  simpl in Hrun.
  destruct (settle _) as [mc|e] eqn:Hset; [|discriminate].
  rewrite get_insert_ne in Hrun by done. rewrite Hbody in Hrun.
  fold files in Hrun. fold handle in Hrun.
  exists o, mc. eexists.
  destruct (truthy files) eqn:Hf; injection Hrun as <-; simpl;
    rewrite Htr; autorewrite with trace_proj; simpl;
    rewrite Ha, Hfw, Haw, Hfc; simpl.
  - split; [done|]. split; [reflexivity|]. split.
    { split; [done|]. intros _. rewrite !elem_of_cons. tauto. }
    rewrite insert_insert_eq, get_insert_eq.
    split; [done|]. split; [done|]. split; [done|].
    match goal with
    | |- ∃ t, ?pre ++ [?g; ?a; ?f; _; _; _] = _ => exists (pre ++ [g; a; f])
    end.
    apply (app_assoc _ [_; _; _] [_; _; _]).
  - split; [done|]. split; [reflexivity|]. split.
    { split; [|done]. rewrite !elem_of_cons, elem_of_nil.
      intros [[=]|[]]. }
    rewrite insert_insert_eq, get_insert_eq. by repeat split.
Qed.

End Properties.

(** * The properties on the sample deployment *)

Section Examples.

Import Sample.

Lemma sample_names_distinct : NoDup (endpoint_names E).
Proof.
  unfold endpoint_names. simpl.
  repeat (apply NoDup_cons; split;
          [rewrite ?elem_of_cons, elem_of_nil; intuition discriminate|]).
  apply NoDup_nil_2.
Qed.

(** C1 on the payload of the specification's example: the client sends
    temperature 0.9, the preset of [S] says 0.2, the builder gets 0.2. *)
Lemma enforced_builder_receives_preset_example :
  @selects deps reqEnforced specS ∧
  ∃ c, builderCalls (st_trace (run reqEnforced).2)
       = [(openAI_buildOptions,
           [AVal (JStr "openAI"); AConvo c; AVal JUndefined])] ∧
       get (body reqEnforced) "temperature" = JNum (9 # 10) ∧
       get c "temperature" = JNum (2 # 10).
Proof.
  assert (Hsel : @selects deps reqEnforced specS).
  { exists [specS; specT; specBad], (body reqEnforced).
    repeat split; vm_compute; reflexivity. }
  split; [exact Hsel|].
  exists (preset specS).
  destruct (@enforced_builder_receives_preset deps reqEnforced specS (preset specS)
              "openAI" openAI_buildOptions Hsel)
    as (_ & _ & Hcalls & _); try (vm_compute; reflexivity).
  split; [exact Hcalls|]. split; vm_compute; reflexivity.
Defined.

(** C4 on a payload that names a spec while no catalog is configured. *)
Lemma enforcer_runs_iff_catalog_enforced_example :
  get (body reqPlain) "spec" = JStr "S" ∧
  ¬ catalogEnforced (modelSpecs reqPlain) ∧
  enforcerActed (st_trace (run reqPlain).2) = false ∧
  builderCalls (st_trace (run reqPlain).2)
  = [(openAI_buildOptions,
      [AVal (JStr "openAI"); AConvo (body reqPlain); AVal JUndefined])].
Proof.
  assert (Hoff : ¬ catalogEnforced (modelSpecs reqPlain)).
  { intros (m & l & Hm & _). discriminate Hm. }
  destruct (@enforcer_runs_iff_catalog_enforced deps reqPlain (body reqPlain))
    as (Hiff & Hverb); [vm_compute; reflexivity|].
  destruct (Hverb Hoff) as (_ & _ & _ & Hcalls).
  split; [vm_compute; reflexivity|]. split; [exact Hoff|]. split.
  - destruct (enforcerActed (st_trace (run reqPlain).2)) eqn:Hact; [|reflexivity].
    destruct Hoff. apply Hiff. exact Hact.
  - apply (Hcalls "openAI" openAI_buildOptions); vm_compute; reflexivity.
Defined.

(** C5: spec [S] is configured for [openAI], the request names [google]. *)
Lemma spec_endpoint_mismatch_rejected_example :
  @selects deps reqMismatch specS ∧
  ∃ st, run reqMismatch = (Ret, st) ∧
    handled (st_trace st) = ["Model spec mismatch"] ∧
    builderCalls (st_trace st) = [].
Proof.
  assert (Hsel : @selects deps reqMismatch specS).
  { exists [specS; specT; specBad], (body reqMismatch).
    repeat split; vm_compute; reflexivity. }
  split; [exact Hsel|].
  destruct (@spec_endpoint_mismatch_rejected deps reqMismatch specS Hsel)
    as (st & Hrun & Htr & Hbc & _); [vm_compute; reflexivity|].
  exists st. split; [exact Hrun|]. split; [|exact Hbc].
  rewrite Htr. reflexivity.
Defined.

(** C6, amended: spec [T] declares tools for [google] and is requested
    through [google]. *)
Lemma tools_on_other_endpoint_rejected_example :
  @selects deps reqTools specT ∧
  ∃ st, run reqTools = (Ret, st) ∧
    handled (st_trace st)
    = ["Only the " +:+ dquote +:+ "gptPlugins" +:+ dquote
         +:+ " endpoint can have tools defined in the preset"] ∧
    builderCalls (st_trace st) = [].
Proof.
  assert (Hsel : @selects deps reqTools specT).
  { exists [specS; specT; specBad], (body reqTools).
    repeat split; vm_compute; reflexivity. }
  split; [exact Hsel|].
  destruct (@tools_on_other_endpoint_rejected deps reqTools specT Hsel)
    as (st & Hrun & Htr & _ & Hbc & _); try (vm_compute; reflexivity).
  exists st. split; [exact Hrun|]. split; [|exact Hbc].
  rewrite Htr. reflexivity.
Defined.

(** C6 as worded fails: spec [T] requested through [openAI] is turned
    down for the mismatch, not for its tools. *)
Lemma tools_violation_masked_by_mismatch :
  run reqToolsMismatch
  = (Ret, {| st_body := body reqToolsMismatch;
             st_trace := [EvParse (@clientArgs (body reqToolsMismatch));
                          EvHandleError "Model spec mismatch"] |}) ∧
  ¬ tools_violation_always_reported.
Proof.
  split; [vm_compute; reflexivity|].
  intros Hclaim.
  destruct (Hclaim deps reqToolsMismatch specT) as (st & Hrun & Hh).
  - exists [specS; specT; specBad], (body reqToolsMismatch).
    repeat split; vm_compute; reflexivity.
  - vm_compute; reflexivity.
  - vm_compute; reflexivity.
  - assert (Hst : st = (run reqToolsMismatch).2).
    { unfold run. rewrite Hrun. reflexivity. }
    rewrite Hst in Hh. vm_compute in Hh. discriminate Hh.
Qed.

(** C7 on three requests through [google]: with [endpointType]
    [anthropic] the anthropic builder is called; with no [endpointType],
    or a [null] one, the google builder is.  And the Azure variant shares
    the OpenAI builder. *)
Lemma dispatch_calls_mapped_builder_example :
  builderCalls (st_trace (run MoreSamples.reqTypeOverEndpoint).2)
  = [(anthropic_buildOptions,
      [AVal (JStr "google"); AConvo (body MoreSamples.reqTypeOverEndpoint);
       AVal (JStr "anthropic")])] ∧
  builderCalls (st_trace (run MoreSamples.reqNoType).2)
  = [(google_buildOptions,
      [AVal (JStr "google"); AConvo (body MoreSamples.reqNoType); AVal JUndefined])] ∧
  builderCalls (st_trace (run MoreSamples.reqNullType).2)
  = [(google_buildOptions,
      [AVal (JStr "google"); AConvo (body MoreSamples.reqNullType); AVal JNull])] ∧
  builderCalls (st_trace (run reqAzure).2)
  = [(openAI_buildOptions,
      [AVal (JStr "openAI"); AConvo (body reqAzure); AVal (JStr "azureOpenAI")])] ∧
  @buildFunction deps !! "azureOpenAI" = @buildFunction deps !! "openAI".
Proof.
  assert (H1 : @normalized deps MoreSamples.reqTypeOverEndpoint
                 (body MoreSamples.reqTypeOverEndpoint)).
  { exists (@normalize deps None (initial MoreSamples.reqTypeOverEndpoint)).2.
    vm_compute. reflexivity. }
  assert (H2 : @normalized deps MoreSamples.reqNoType (body MoreSamples.reqNoType)).
  { exists (@normalize deps None (initial MoreSamples.reqNoType)).2.
    vm_compute. reflexivity. }
  assert (H3 : @normalized deps MoreSamples.reqNullType (body MoreSamples.reqNullType)).
  { exists (@normalize deps None (initial MoreSamples.reqNullType)).2.
    vm_compute. reflexivity. }
  assert (H4 : @normalized deps reqAzure (body reqAzure)).
  { exists (@normalize deps None (initial reqAzure)).2.
    vm_compute. reflexivity. }
  destruct (@dispatch_calls_mapped_builder deps MoreSamples.reqTypeOverEndpoint _
              "anthropic" anthropic_buildOptions H1 eq_refl eq_refl)
    as (_ & Hc1 & _).
  destruct (@dispatch_calls_mapped_builder deps MoreSamples.reqNoType _
              "google" google_buildOptions H2 eq_refl eq_refl)
    as (_ & Hc2 & _).
  destruct (@dispatch_calls_mapped_builder deps MoreSamples.reqNullType _
              "google" google_buildOptions H3 eq_refl eq_refl)
    as (_ & Hc3 & _).
  destruct (@dispatch_calls_mapped_builder deps reqAzure _
              "azureOpenAI" openAI_buildOptions H4 eq_refl eq_refl)
    as (_ & Hc4 & _ & _ & Htab).
  split; [exact Hc1|]. split; [exact Hc2|]. split; [exact Hc3|].
  split; [exact Hc4|].
  destruct (Htab sample_names_distinct) as [Ha Ho].
  simpl in Ha, Ho. rewrite Ha, Ho. reflexivity.
Defined.

(** C8, amended, on a malformed payload and on a malformed preset. *)
Lemma parse_failures_terminal_and_distinct_example :
  handled (st_trace (run reqMalformed).2) = ["Error parsing conversation"] ∧
  handled (st_trace (run reqBadPreset).2) = ["Error parsing model spec"].
Proof.
  split.
  - destruct (@parse_failures_terminal_and_distinct deps reqMalformed)
      as (_ & Hclient & _).
    unfold run.
    rewrite (Hclient (Thrown (JStr "ZodError"))) by (vm_compute; reflexivity).
    reflexivity.
  - destruct (@parse_failures_terminal_and_distinct deps reqBadPreset)
      as (_ & _ & Hpreset & _).
    unfold run.
    rewrite (Hpreset specBad (Thrown (JStr "ZodError"))); [reflexivity| | | |];
      try (vm_compute; reflexivity).
    exists [specS; specT; specBad], (body reqBadPreset).
    repeat split; vm_compute; reflexivity.
Defined.

(** C8 as worded fails on the texts: the messages start with a capital
    letter. *)
Lemma parse_errors_are_capitalised :
  handled (st_trace (run reqMalformed).2) = ["Error parsing conversation"] ∧
  "Error parsing conversation" ≠ "error parsing conversation" ∧
  ¬ parse_errors_reported_as_quoted.
Proof.
  split; [vm_compute; reflexivity|]. split; [discriminate|].
  intros Hclaim.
  destruct (Hclaim deps reqMalformed) as (Hclient & _).
  destruct (Hclient (Thrown (JStr "ZodError"))) as (st & Hrun & Hh);
    [vm_compute; reflexivity|].
  assert (Hst : st = (run reqMalformed).2).
  { unfold run. rewrite Hrun. reflexivity. }
  rewrite Hst in Hh. vm_compute in Hh. discriminate Hh.
Qed.

(** C9, amended, on an identifier that names nothing. *)
Lemma unknown_identifier_throws_example :
  @normalized deps reqUnknown (body reqUnknown) ∧
  (∃ msg st, run reqUnknown = (Exc (TypeError msg), st) ∧
     handled (st_trace st) = []).
Proof.
  assert (Hn : @normalized deps reqUnknown (body reqUnknown)).
  { exists (@normalize deps (modelSpecs reqUnknown) (initial reqUnknown)).2.
    vm_compute. reflexivity. }
  split; [exact Hn|].
  destruct (@unknown_identifier_throws deps reqUnknown (body reqUnknown) "mistral" Hn)
    as (_ & msg & st & Hrun & Hh & _); try (vm_compute; reflexivity).
  exists msg, st. split; [exact Hrun|exact Hh].
Defined.

(** C9 as worded fails: [constructor] is not a key of the table, yet
    [buildFunction["constructor"]] is the inherited function [Object];
    it is called, nothing throws, and [next] is reached. *)
Lemma inherited_member_is_called :
  @buildFunction deps !! "constructor" = None ∧
  (run reqConstructor).1 = Val tt ∧
  inheritedCalls (st_trace (run reqConstructor).2) = ["constructor"] ∧
  nextCalls (st_trace (run reqConstructor).2) = [tt] ∧
  ¬ unknown_identifier_always_throws.
Proof.
  split; [vm_compute; reflexivity|]. split; [vm_compute; reflexivity|].
  split; [vm_compute; reflexivity|]. split; [vm_compute; reflexivity|].
  intros Hclaim.
  destruct (Hclaim deps reqConstructor (body reqConstructor) "constructor")
    as (Hl & _).
  - exists (@normalize deps (modelSpecs reqConstructor) (initial reqConstructor)).2.
    vm_compute. reflexivity.
  - vm_compute; reflexivity.
  - vm_compute; reflexivity.
  - vm_compute in Hl. discriminate Hl.
Qed.

(** C10: [endpointType] is [agents], [endpoint] is [openAI]. *)
Lemma request_binding_follows_endpoint_only_example :
  @normalized deps reqAgentsType (body reqAgentsType) ∧
  builderCalls (st_trace (run reqAgentsType).2)
  = [(agents_buildOptions,
      [AVal (JStr "openAI"); AConvo (body reqAgentsType); AVal (JStr "agents")])] ∧
  builderCalls (st_trace (run reqAgents).2)
  = [(agents_buildOptions,
      [AReq reqAgents; AVal (JStr "agents"); AConvo (body reqAgents); AVal JUndefined])].
Proof.
  assert (Hn : @normalized deps reqAgentsType (body reqAgentsType)).
  { exists (@normalize deps (modelSpecs reqAgentsType) (initial reqAgentsType)).2.
    vm_compute. reflexivity. }
  assert (Hn' : @normalized deps reqAgents (body reqAgents)).
  { exists (@normalize deps (modelSpecs reqAgents) (initial reqAgents)).2.
    vm_compute. reflexivity. }
  split; [exact Hn|].
  destruct (@request_binding_follows_endpoint_only deps reqAgentsType
              (body reqAgentsType) Hn) as (_ & _ & Hunbound).
  destruct (@request_binding_follows_endpoint_only deps reqAgents
              (body reqAgents) Hn') as (Hcall & _ & _).
  split.
  - apply Hunbound; try (vm_compute; reflexivity).
    exact sample_names_distinct.
  - assert (Hk : @ToPropertyKey deps (dispatchIdentifier (body reqAgents))
                 = Normal "agents") by (vm_compute; reflexivity).
    assert (Hb : @buildFunction deps !! "agents" = Some agents_buildOptions)
      by (vm_compute; reflexivity).
    destruct (Hcall "agents" agents_buildOptions Hk Hb) as (args & Hcalls & Hbound & _).
    unfold run. rewrite Hcalls. rewrite Hbound by (vm_compute; reflexivity).
    reflexivity.
Defined.

(** C2, amended, on a payload with one file. *)
Lemma attachments_written_iff_files_truthy_example :
  run reqOneFile = (Val tt, (run reqOneFile).2) ∧
  ∃ o, get (st_body (run reqOneFile).2) "endpointOption" = JObj o ∧
    o !! "attachments" = Some (JPromise attachmentsPromise) ∧
    awaits (st_trace (run reqOneFile).2) = [modelsConfigPromise].
Proof.
  assert (Hrun : run reqOneFile = (Val tt, (run reqOneFile).2)).
  { vm_compute. reflexivity. }
  split; [exact Hrun|].
  destruct (@attachments_written_iff_files_truthy deps reqOneFile "openAI"
              openAI_buildOptions _ Hrun)
    as (opts & mc & r & _ & Haw & _ & Hobj); try (vm_compute; reflexivity).
  change (truthy (get (body reqOneFile) "files")) with true in Hobj.
  destruct Hobj as (Hobj & _).
  eexists. split; [exact Hobj|]. split; [|exact Haw].
  apply lookup_insert_eq.
Defined.

(** C2 as worded fails: an empty file list is still a truthy value, so
    [processFiles] is started and [attachments] is set. *)
Lemma attachments_set_for_empty_file_list :
  get (body reqEmptyFiles) "files" = JArr [] ∧
  (run reqEmptyFiles).1 = Val tt ∧
  fileCalls (st_trace (run reqEmptyFiles).2) = [JArr []] ∧
  hasAttachments (st_body (run reqEmptyFiles).2) ∧
  ¬ attachments_iff_nonempty_file_list.
Proof.
  assert (Hhas : hasAttachments (st_body (run reqEmptyFiles).2)).
  { unfold hasAttachments.
    destruct (get (st_body (run reqEmptyFiles).2) "endpointOption")
      as [| | | | | |o|] eqn:Ho; try (vm_compute in Ho; discriminate Ho).
    exists o, (JPromise attachmentsPromise). split; [reflexivity|].
    vm_compute in Ho. injection Ho as <-. vm_compute. reflexivity. }
  split; [vm_compute; reflexivity|]. split; [vm_compute; reflexivity|].
  split; [vm_compute; reflexivity|]. split; [exact Hhas|].
  intros Hclaim.
  destruct (Hclaim deps reqEmptyFiles (run reqEmptyFiles).2) as [Hto _].
  { vm_compute. reflexivity. }
  destruct (Hto Hhas) as (f & fs & Hfiles).
  vm_compute in Hfiles. discriminate Hfiles.
Qed.

(** C3 on a rejected request and on a completed one. *)
Lemma endpointOption_assigned_once_and_never_on_failure_example :
  (run reqMismatch).1 = Ret ∧
  assignments (st_trace (run reqMismatch).2) = [] ∧
  st_body (run reqMismatch).2 = body reqMismatch ∧
  length (assignments (st_trace (run reqOneFile).2)) = 1.
Proof.
  destruct (@endpointOption_assigned_once_and_never_on_failure deps reqMismatch)
    as (_ & _ & Hfail & _).
  destruct (@endpointOption_assigned_once_and_never_on_failure deps reqOneFile)
    as (_ & _ & _ & Hnext).
  assert (Hret : (run reqMismatch).1 = Ret) by (vm_compute; reflexivity).
  destruct (Hfail Hret) as (text & _ & _ & Ha & _ & _ & _ & Hb).
  destruct Hnext as (_ & Hone); [vm_compute; discriminate|].
  split; [exact Hret|]. split; [exact Ha|]. split; [exact Hb|exact Hone].
Defined.

End Examples.

(** * Further properties of the middleware *)

Lemma modelsCalls_app t1 t2 : modelsCalls (t1 ++ t2) = modelsCalls t1 ++ modelsCalls t2.
Proof. apply omap_app. Qed.

#[export] Hint Rewrite modelsCalls_app : trace_proj.

Lemma quiet_app t1 t2 : quiet t1 → quiet t2 → quiet (t1 ++ t2).
Proof.
  unfold quiet. intros (?&?&?&?&?&?&?) (?&?&?&?&?&?&?).
  autorewrite with trace_proj.
  repeat split; by apply app_nil.
Qed.

(** [===] against a string holds for that string only: nothing is
    coerced. *)
Lemma strict_eq_str (n : string) (v : JSValue) :
  strict_eq (JStr n) v = true ↔ v = JStr n.
Proof.
  destruct v; simpl; try (split; [discriminate|done]).
  rewrite String.eqb_eq. split; [by intros ->|by intros [= ->]].
Qed.

Section MoreProperties.

Context `{!Collaborators}.

Lemma findSpec_None (l : list TModelSpec) (spec : JSValue) :
  (∀ s, s ∈ l → JStr (name s) ≠ spec) → findSpec l spec = None.
Proof.
  unfold findSpec. induction l as [|s l IH]; intros Hno; [done|].
  cbn [List.find]. destruct (strict_eq (JStr (name s)) spec) eqn:Heq.
  - apply strict_eq_str in Heq. destruct (Hno s); [by left|done].
  - apply IH. intros s' Hs'. apply Hno. by right.
Qed.

Lemma findSpec_first (l1 l2 : list TModelSpec) (s : TModelSpec) :
  (∀ s', s' ∈ l1 → name s' ≠ name s) →
  findSpec (l1 ++ s :: l2) (JStr (name s)) = Some s.
Proof.
  unfold findSpec. induction l1 as [|s' l1 IH]; intros Hno; simpl.
  - by rewrite String.eqb_refl.
  - destruct (String.eqb (name s') (name s)) eqn:Heq.
    + apply String.eqb_eq in Heq. destruct (Hno s'); [by left|done].
    + apply IH. intros s'' Hs''. apply Hno. by right.
Qed.

(** Every way [dispatch] can end. *)
Lemma dispatch_shape ms c s r s' :
  dispatch ms c s = (r, s') →
  ((∃ e, r = Exc e) ∧ st_body s' = st_body s ∧
   ∃ evs, st_trace s' = st_trace s ++ evs ∧
     (evs = [] ∨ ∃ call, evs = [call] ∧ isCall call))
  ∨ (r = Val tt ∧ ∃ call v, isCall call ∧
       st_body s' = <["endpointOption" := v]> (st_body s) ∧
       st_trace s' = st_trace s ++ [call; EvSetEndpointOption v]).
Proof.
  destruct (ToPropertyKey (dispatchIdentifier (st_body s))) as [k|e] eqn:Hk.
  2:{ rewrite (dispatch_key_throw _ _ _ e) by done. intros [= <- <-].
      left. split; [eauto|]. split; [done|]. exists []. rewrite app_nil_r. eauto. }
  destruct (buildFunction !! k) as [fn|] eqn:Hb.
  { rewrite (dispatch_builder _ _ _ k fn) by done.
    destruct (buildOptions _ _) as [o|e]; intros [= <- <-].
    - right. split; [done|]. eexists _, _. by repeat split.
    - left. split; [eauto|]. split; [done|]. eexists. split; [reflexivity|].
      right. eexists. by split. }
  destruct (objectPrototype k) as [f|] eqn:Hp.
  { rewrite (dispatch_inherited _ _ _ k f) by done.
    destruct (f _) as [v|e]; intros [= <- <-].
    - right. split; [done|]. eexists _, _. by repeat split.
    - left. split; [eauto|]. split; [done|]. eexists. split; [reflexivity|].
      right. eexists. by split. }
  destruct (dispatch_undefined ms c s k) as [msg ->]; [done| |].
  { unfold lookupBuildFunction. by rewrite Hb, Hp. }
  intros [= <- <-]. left. split; [eauto|]. split; [done|].
  exists []. rewrite app_nil_r. eauto.
Qed.

(** Every way [enrich] can end: the catalog is fetched and awaited
    first; only [endpointOption] is written; [processFiles] is started
    only on the way to [next]. *)
Lemma enrich_shape ms s r s' :
  enrich ms s = (r, s') →
  let req' := {| body := st_body s; modelSpecs := ms |} in
  let files := get (st_body s) "files" in
  (∀ k, k ≠ "endpointOption" → get (st_body s') k = get (st_body s) k) ∧
  ∃ tail,
    st_trace s' = st_trace s ++
      EvGetModelsConfig req' :: EvAwait (getModelsConfig req') :: tail ∧
    handled tail = [] ∧ assignments tail = [] ∧ modelsCalls tail = [] ∧
    awaits tail = [] ∧
    match r with
    | Val _ =>
        nextCalls tail = [tt] ∧ last tail = Some EvNext ∧
        fileCalls tail = (if truthy files then [files] else [])
    | Ret => False
    | Exc _ => nextCalls tail = [] ∧ fileCalls tail = []
    end.
Proof.
  intros He req' files. subst req' files. revert He.
  unfold enrich, setOptionField. mrun.
  destruct (settle _) as [mc|e] eqn:Hset; simpl.
  2:{ intros [= <- <-]. simpl. split; [done|].
      rewrite <- app_assoc. simpl. eexists. split; [reflexivity|].
      by repeat split. }
  destruct (get (st_body s) "endpointOption") eqn:Ho; simpl;
    rewrite ?get_insert_ne by done;
    destruct (truthy (get (st_body s) "files")) eqn:Hf; simpl;
    rewrite ?get_insert_eq, ?Ho; simpl;
    intros [= <- <-]; simpl;
    (split; [intros k Hk; by rewrite ?get_insert_ne by done|]);
    rewrite <- ?app_assoc; simpl;
    (eexists; split; [reflexivity|]); by repeat split.
Qed.

(** Every run, in three shapes: reported and returned; thrown before
    anything was assigned; assigned and enriched. *)
Lemma run_shape req :
  let r := (buildEndpointOption req).1 in
  let st := (buildEndpointOption req).2 in
  (∃ pre text, r = Ret ∧ quiet pre ∧ st_body st = body req ∧
     st_trace st = pre ++ [EvHandleError text])
  ∨ (∃ e, r = Exc e ∧ quiet (st_trace st) ∧ st_body st = body req)
  ∨ (∃ pre v tail, quiet pre ∧
       (∀ k, k ≠ "endpointOption" → get (st_body st) k = get (body req) k) ∧
       st_trace st = pre ++ EvSetEndpointOption v ::
         EvGetModelsConfig (withOption req v) ::
         EvAwait (getModelsConfig (withOption req v)) :: tail ∧
       handled tail = [] ∧ assignments tail = [] ∧ modelsCalls tail = [] ∧
       awaits tail = [] ∧
       match r with
       | Val _ =>
           nextCalls tail = [tt] ∧ last tail = Some EvNext ∧
           fileCalls tail = (if truthy (get (body req) "files")
                             then [get (body req) "files"] else [])
       | Ret => False
       | Exc _ => nextCalls tail = [] ∧ fileCalls tail = []
       end).
Proof.
  intros r st. subst r st.
  destruct (normalize_cases (modelSpecs req) (initial req))
    as [(e & _ & Hn)|[(c0 & _ & _ & Hn)|[(c0 & l & text & _ & _ & _ & Hn)
       |(c0 & l & cs & _ & _ & _ & _ & _ & _ & [(e & _ & Hn)|(c & _ & Hn)])]]];
    simpl in Hn.
  1,3: rewrite (pipeline_ret _ _ Hn); left;
    exists [EvParse (clientArgs (body req))]; eexists;
    by repeat split.
  2: rewrite (pipeline_ret _ _ Hn); left;
    exists [EvParse (clientArgs (body req)); EvParse (presetArgs (body req) cs)];
    eexists; by repeat split.
  all: rewrite (pipeline_val _ _ _ Hn);
    match goal with
    | |- context [dispatch ?ms ?c0 ?s0] =>
        destruct (dispatch ms c0 s0) as [rd sd] eqn:Hd;
        destruct (dispatch_shape _ _ _ _ _ Hd)
          as [((e & ->) & Hb & evs & Htr & Hev)|(-> & call & v & Hcall & Hb & Htr)]
    end; simpl in Hb, Htr.
  1,3: right; left; exists e; simpl; rewrite Htr, Hb; split; [done|];
    (split; [|done]);
    destruct Hev as [->|(call & -> & Hcall)];
    first [by repeat split | destruct call; try done; by repeat split].
  all: right; right;
    destruct (enrich _ sd) as [re se] eqn:He;
    destruct (enrich_shape _ _ _ _ He) as (Hbody & tail & Htr' & Hh & Ha & Hm & Haw & Hr);
    rewrite Hb in Hbody, Htr', Hr;
    rewrite get_insert_ne in Hr by done;
    simpl.
  - exists [EvParse (clientArgs (body req)); call], v, tail.
    split; [destruct call; try done; by repeat split|].
    split; [intros k Hk; rewrite Hbody by done; by rewrite get_insert_ne|].
    split; [rewrite Htr', Htr; reflexivity|]. by repeat split.
  - exists [EvParse (clientArgs (body req)); EvParse (presetArgs (body req) cs); call],
      v, tail.
    split; [destruct call; try done; by repeat split|].
    split; [intros k Hk; rewrite Hbody by done; by rewrite get_insert_ne|].
    split; [rewrite Htr', Htr; reflexivity|]. by repeat split.
Qed.

(** ** What the middleware leaves alone *)

(** X1. Whatever happens to the request, the middleware changes no
    property of [req.body] other than [endpointOption]. *)
Theorem body_fields_preserved req k :
  k ≠ "endpointOption" →
  get (st_body (buildEndpointOption req).2) k = get (body req) k.
Proof.
  intros Hk.
  destruct (run_shape req)
    as [(pre & text & _ & _ & Hb & _)|[(e & _ & _ & Hb)|(pre & v & tail & _ & Hb & _)]].
  - by rewrite Hb.
  - by rewrite Hb.
  - by apply Hb.
Qed.

(** ** The enforcer's first two checks *)

(** X2. Under enforcement, a payload whose parsed conversation has no
    [spec] (or a falsy one, such as the empty string) is turned down
    with [No model spec selected]; nothing else happens. *)
Theorem missing_spec_rejected req l c0 :
  enforcing (modelSpecs req) = Some l →
  parseCompactConvo (clientArgs (body req)) = Normal c0 →
  truthy (get c0 "spec") = false →
  buildEndpointOption req
  = (Ret, {| st_body := body req;
             st_trace := [EvParse (clientArgs (body req));
                          EvHandleError "No model spec selected"] |}).
Proof.
  intros He Hp Hs. apply pipeline_ret.
  rewrite (normalize_client_ok _ c0) by done. rewrite He. simpl.
  by rewrite enforceSpec_no_spec by done.
Qed.

(** X3. Under enforcement, a [spec] that is the name of no entry of the
    catalog is turned down with [Invalid model spec]; nothing else
    happens. *)
Theorem unknown_spec_rejected req l c0 :
  enforcing (modelSpecs req) = Some l →
  parseCompactConvo (clientArgs (body req)) = Normal c0 →
  truthy (get c0 "spec") = true →
  (∀ s, s ∈ l → JStr (name s) ≠ get c0 "spec") →
  buildEndpointOption req
  = (Ret, {| st_body := body req;
             st_trace := [EvParse (clientArgs (body req));
                          EvHandleError "Invalid model spec"] |}).
Proof.
  intros He Hp Hs Hno. apply pipeline_ret.
  rewrite (normalize_client_ok _ c0) by done. rewrite He. simpl.
  by rewrite enforceSpec_invalid by (done || by apply findSpec_None).
Qed.

(** X4. The catalog is searched with [===]: a [spec] that is not a
    string (a number, a boolean, an array, an object) matches no entry,
    whatever the names in the catalog, and is turned down with
    [Invalid model spec]. *)
Theorem non_string_spec_rejected req l c0 :
  enforcing (modelSpecs req) = Some l →
  parseCompactConvo (clientArgs (body req)) = Normal c0 →
  truthy (get c0 "spec") = true →
  (∀ n, get c0 "spec" ≠ JStr n) →
  findSpec l (get c0 "spec") = None ∧
  (buildEndpointOption req).1 = Ret ∧
  handled (st_trace (buildEndpointOption req).2) = ["Invalid model spec"].
Proof.
  intros He Hp Hs Hns.
  assert (Hf : findSpec l (get c0 "spec") = None).
  { apply findSpec_None. intros s _ Heq. by apply (Hns (name s)). }
  split; [done|].
  assert (Hrun : buildEndpointOption req
            = (Ret, log (log (initial req) [EvParse (clientArgs (body req))])
                      [EvHandleError "Invalid model spec"])).
  { apply pipeline_ret. rewrite (normalize_client_ok _ c0) by done.
    rewrite He. simpl. by rewrite enforceSpec_invalid by done. }
  by rewrite Hrun.
Qed.

(** X5. With [enforce] set and an empty [list], no request gets
    through: every run ends in [handleError] (parse error, no spec, or
    invalid spec) without calling anything or touching the body. *)
Theorem empty_catalog_rejects_every_request req m :
  modelSpecs req = Some m →
  list_ m = Some [] →
  truthy (enforce m) = true →
  let st := (buildEndpointOption req).2 in
  (buildEndpointOption req).1 = Ret ∧
  (∃ text, handled (st_trace st) = [text] ∧
     text ∈ ["Error parsing conversation"; "No model spec selected";
             "Invalid model spec"]) ∧
  builderCalls (st_trace st) = [] ∧
  inheritedCalls (st_trace st) = [] ∧
  st_body st = body req.
Proof.
  intros Hm Hl Ht st. subst st.
  assert (He : enforcing (modelSpecs req) = Some []).
  { unfold enforcing. by rewrite Hm, Hl, Ht. }
  destruct (parseCompactConvo (clientArgs (body req))) as [c0|e] eqn:Hp.
  2:{ rewrite (pipeline_ret req _ (normalize_client_throw _ e (initial req) Hp)).
      simpl. split; [done|]. split; [|done].
      eexists. split; [done|]. rewrite !elem_of_cons. tauto. }
  destruct (truthy (get c0 "spec")) eqn:Hs.
  - assert (Hrun : buildEndpointOption req
              = (Ret, log (log (initial req) [EvParse (clientArgs (body req))])
                        [EvHandleError "Invalid model spec"])).
    { apply pipeline_ret. rewrite (normalize_client_ok _ c0) by done.
      rewrite He. simpl. by rewrite enforceSpec_invalid by done. }
    rewrite Hrun. simpl. split; [done|]. split; [|done].
    eexists. split; [done|]. rewrite !elem_of_cons. tauto.
  - assert (Hrun : buildEndpointOption req
              = (Ret, log (log (initial req) [EvParse (clientArgs (body req))])
                        [EvHandleError "No model spec selected"])).
    { apply pipeline_ret. rewrite (normalize_client_ok _ c0) by done.
      rewrite He. simpl. by rewrite enforceSpec_no_spec by done. }
    rewrite Hrun. simpl. split; [done|]. split; [|done].
    eexists. split; [done|]. rewrite !elem_of_cons. tauto.
Qed.

(** X6. When several entries of the catalog carry the requested name,
    the first one in list order is the spec that is enforced; the
    entries after it play no part. *)
Theorem first_matching_spec_wins req l1 s l2 c0 :
  enforcing (modelSpecs req) = Some (l1 ++ s :: l2) →
  parseCompactConvo (clientArgs (body req)) = Normal c0 →
  get c0 "spec" = JStr (name s) →
  name s ≠ "" →
  (∀ s', s' ∈ l1 → name s' ≠ name s) →
  selects req s ∧
  ∀ l2', findSpec (l1 ++ s :: l2') (get c0 "spec") = Some s.
Proof.
  intros He Hp Hspec Hne Hno.
  assert (Hf : ∀ l2', findSpec (l1 ++ s :: l2') (get c0 "spec") = Some s).
  { intros l2'. rewrite Hspec. by apply findSpec_first. }
  split; [|done].
  exists (l1 ++ s :: l2), c0. repeat split; try done.
  rewrite Hspec. simpl. apply negb_true_iff. by apply String.eqb_neq.
Qed.

(** X7. A preset of the tool-using provider passes the tools check
    whether or not it declares tools: when the request comes through
    [gptPlugins] and the preset parses, the pipeline reaches the
    dispatcher with the re-normalized preset. *)
Theorem gptPlugins_preset_may_declare_tools req cs c :
  selects req cs →
  get (preset cs) "endpoint" = JStr (gptPlugins EModelEndpoint) →
  get (body req) "endpoint" = JStr (gptPlugins EModelEndpoint) →
  parseCompactConvo (presetArgs (body req) cs) = Normal c →
  toolsViolation cs = false ∧
  normalized req c ∧
  handled (st_trace (buildEndpointOption req).2) = [].
Proof.
  intros Hsel Hpe Hre Hp.
  assert (Ht : toolsViolation cs = false).
  { unfold toolsViolation. rewrite Hpe. simpl. by rewrite String.eqb_refl. }
  assert (Hm : endpointMismatch (get (body req) "endpoint") cs = false).
  { unfold endpointMismatch. rewrite Hpe, Hre. simpl. by rewrite String.eqb_refl. }
  pose proof (enforced_normalized req cs c Hsel Hm Ht Hp) as Hn.
  split; [done|]. split; [by eexists|].
  destruct (run_shape req)
    as [(pre & text & Hr & _)|[(e & _ & (Hh & _) & _)
       |(pre & v & tail & (Hh & _) & _ & Htr & Hh' & _)]].
  - exfalso. rewrite (pipeline_val _ _ _ Hn) in Hr.
    destruct (dispatch _ _ _) as [rd sd] eqn:Hd.
    destruct (dispatch_frame _ _ _ _ _ Hd) as (Hrd & _).
    destruct rd as [[]| |e]; simpl in Hr; try done.
    destruct (enrich _ sd) as [re se] eqn:Hen.
    destruct (enrich_frame _ _ _ _ Hen) as (Hre' & _). simpl in Hr. done.
  - done.
  - rewrite Htr. autorewrite with trace_proj. simpl. by rewrite Hh, Hh'.
Qed.

(** ** Failures after normalization *)

(** X8. An exception thrown by the selected builder escapes the
    middleware as it is: nothing is reported through [handleError],
    [endpointOption] is not assigned, the model catalog is not fetched,
    [next] is not called and the body is left as it was. *)
Theorem builder_exception_escapes req c k fn e :
  normalized req c →
  ToPropertyKey (dispatchIdentifier (body req)) = Normal k →
  buildFunction !! k = Some fn →
  buildOptions fn (builderArgs req c) = Throw e →
  ∃ st, buildEndpointOption req = (Exc e, st) ∧
    st_body st = body req ∧
    builderCalls (st_trace st) = [(fn, builderArgs req c)] ∧
    handled (st_trace st) = [] ∧
    assignments (st_trace st) = [] ∧
    modelsCalls (st_trace st) = [] ∧
    nextCalls (st_trace st) = [].
Proof.
  intros [s Hn] Hk Hb Hthrow.
  rewrite (pipeline_val _ _ _ Hn).
  apply normalize_val_inv in Hn
    as (Hbody & evs & Htr & Hbc & _ & Hh & Ha & _ & _ & Hnx & Hev).
  simpl in Hbody, Htr.
  assert (Hmc : modelsCalls evs = []).
  { by destruct Hev as [(_ & _ & ->)|(? & ? & ? & _ & _ & _ & _ & _ & _ & _ & ->)]. }
  rewrite (dispatch_builder _ _ _ k fn) by (by rewrite ?Hbody).
  rewrite Hbody.
  replace {| body := body req; modelSpecs := modelSpecs req |} with req
    by (by destruct req).
  rewrite Hthrow. eexists. split; [reflexivity|]. simpl.
  rewrite Htr. autorewrite with trace_proj. simpl.
  by rewrite Hbc, Hh, Ha, Hmc, Hnx.
Qed.

(** X9. When the model catalog cannot be fetched, the rejection escapes
    the middleware after [endpointOption] has been assigned: the body
    keeps the builder's record, without [modelsConfig]; no file
    processing is started, nothing is reported and [next] is not
    called. *)
Theorem models_rejection_leaves_option_assigned req c k fn o e :
  normalized req c →
  ToPropertyKey (dispatchIdentifier (body req)) = Normal k →
  buildFunction !! k = Some fn →
  buildOptions fn (builderArgs req c) = Normal o →
  settle (getModelsConfig (withOption req (JObj o))) = Throw e →
  ∃ st, buildEndpointOption req = (Exc e, st) ∧
    st_body st = <["endpointOption" := JObj o]> (body req) ∧
    assignments (st_trace st) = [JObj o] ∧
    fieldWrites (st_trace st) = [] ∧
    fileCalls (st_trace st) = [] ∧
    handled (st_trace st) = [] ∧
    nextCalls (st_trace st) = [].
Proof.
  intros [s Hn] Hk Hb Hbuild Hset.
  rewrite (pipeline_val _ _ _ Hn).
  apply normalize_val_inv in Hn
    as (Hbody & evs & Htr & _ & _ & Hh & Ha & Hfw & _ & Hnx & Hev).
  simpl in Hbody, Htr.
  assert (Hfc : fileCalls evs = []).
  { by destruct Hev as [(_ & _ & ->)|(? & ? & ? & _ & _ & _ & _ & _ & _ & _ & ->)]. }
  rewrite (dispatch_builder _ _ _ k fn) by (by rewrite ?Hbody).
  rewrite Hbody.
  replace {| body := body req; modelSpecs := modelSpecs req |} with req
    by (by destruct req).
  rewrite Hbuild.
  rewrite (enrich_object _ _ o) by (simpl; apply get_insert_eq). simpl.
  fold (withOption req (JObj o)). rewrite Hset.
  eexists. split; [reflexivity|]. simpl.
  rewrite Htr. autorewrite with trace_proj. simpl.
  by rewrite Hh, Ha, Hfw, Hfc, Hnx.
Qed.

(** ** What a completed run leaves on the request *)

(** X10. After a successful run that dispatched to a builder of the
    table, [endpointOption] is the record that builder returned with
    [modelsConfig] set to what [getModelsConfig] resolved to (replacing
    a [modelsConfig] of the builder's own, if any); apart from
    [modelsConfig] and [attachments], every field of the builder's
    record is there unchanged.  The catalog was fetched once, for the
    request that already carries the builder's record. *)
Theorem modelsConfig_added_builder_fields_kept req k fn st :
  buildEndpointOption req = (Val tt, st) →
  ToPropertyKey (dispatchIdentifier (body req)) = Normal k →
  buildFunction !! k = Some fn →
  ∃ c opts mc o,
    normalized req c ∧
    buildOptions fn (builderArgs req c) = Normal opts ∧
    settle (getModelsConfig (withOption req (JObj opts))) = Normal mc ∧
    modelsCalls (st_trace st) = [withOption req (JObj opts)] ∧
    get (st_body st) "endpointOption" = JObj o ∧
    o !! "modelsConfig" = Some mc ∧
    ∀ f, f ≠ "modelsConfig" → f ≠ "attachments" → o !! f = opts !! f.
Proof.
  intros Hrun Hk Hb.
  destruct (normalize (modelSpecs req) (initial req)) as [[c| |e] s] eqn:Hn.
  2:{ rewrite (pipeline_ret _ _ Hn) in Hrun. discriminate. }
  2:{ exfalso.
      destruct (normalize_cases (modelSpecs req) (initial req))
        as [(? & _ & Hn')|[(? & _ & _ & Hn')|[(? & ? & ? & _ & _ & _ & Hn')
           |(? & ? & ? & _ & _ & _ & _ & _ & _ & [(? & _ & Hn')|(? & _ & Hn')])]]];
        simpl in Hn'; rewrite Hn' in Hn; discriminate. }
  assert (Hnorm : normalized req c) by (by eexists).
  rewrite (pipeline_val _ _ _ Hn) in Hrun.
  apply normalize_val_inv in Hn
    as (Hbody & evs & Htr & _ & _ & _ & _ & _ & _ & _ & Hev).
  simpl in Hbody, Htr.
  assert (Hmc : modelsCalls evs = []).
  { by destruct Hev as [(_ & _ & ->)|(? & ? & ? & _ & _ & _ & _ & _ & _ & _ & ->)]. }
  rewrite (dispatch_builder _ _ _ k fn) in Hrun by (by rewrite ?Hbody).
  rewrite Hbody in Hrun.
  replace {| body := body req; modelSpecs := modelSpecs req |} with req in Hrun
    by (by destruct req).
  destruct (buildOptions fn _) as [opts|e] eqn:Hbuild; [|discriminate].
  rewrite (enrich_object _ _ opts) in Hrun by (simpl; apply get_insert_eq).
  simpl in Hrun. fold (withOption req (JObj opts)) in Hrun.
  destruct (settle _) as [mc|e] eqn:Hset; [|discriminate].
  exists c, opts, mc.
  destruct (truthy _) eqn:Hf; injection Hrun as <-; simpl;
    rewrite Htr; autorewrite with trace_proj; simpl; rewrite Hmc; simpl;
    rewrite insert_insert_eq, get_insert_eq; eexists;
    (split; [done|]); (split; [done|]); (split; [done|]); (split; [done|]);
    (split; [reflexivity|]).
  - split; [by rewrite lookup_insert_ne, lookup_insert_eq|].
    intros f Hf1 Hf2. by rewrite !lookup_insert_ne.
  - split; [by rewrite lookup_insert_eq|].
    intros f Hf1 Hf2. by rewrite lookup_insert_ne.
Qed.

(** X11. [processFiles] is never started for a request that fails: in
    every run that calls it, it is called once, on a truthy
    [req.body.files], and the run ends with [next]. *)
Theorem processFiles_only_on_completed_runs req :
  let r := (buildEndpointOption req).1 in
  let st := (buildEndpointOption req).2 in
  fileCalls (st_trace st) ≠ [] →
  r = Val tt ∧
  fileCalls (st_trace st) = [get (body req) "files"] ∧
  truthy (get (body req) "files") = true ∧
  nextCalls (st_trace st) = [tt].
Proof.
  intros r st. subst r st.
  destruct (run_shape req)
    as [(pre & text & _ & Hq & _ & Htr)|[(e & _ & Hq & _)
       |(pre & v & tail & Hq & _ & Htr & _ & _ & _ & _ & Hr)]].
  - destruct Hq as (_ & _ & _ & _ & _ & Hfc & _).
    rewrite Htr. autorewrite with trace_proj. simpl. rewrite Hfc. by intros [].
  - destruct Hq as (_ & _ & _ & _ & _ & Hfc & _). rewrite Hfc. by intros [].
  - destruct Hq as (_ & _ & _ & _ & _ & Hfc & Hnx).
    rewrite Htr. autorewrite with trace_proj. simpl. rewrite Hfc, Hnx. simpl.
    destruct (buildEndpointOption req).1 as [[]| |e]; [|done|].
    + destruct Hr as (-> & _ & ->).
      destruct (truthy (get (body req) "files")); [done|by intros []].
    + destruct Hr as (_ & ->). by intros [].
Qed.

(** X12. Every run ends in exactly one way.  A completed run calls
    [next] once, as its last action, and reports nothing; a rejected run
    calls [handleError] once, as its last action, and never [next]; a run
    that throws does neither. *)
Theorem one_terminal_action req :
  let st := (buildEndpointOption req).2 in
  match (buildEndpointOption req).1 with
  | Val _ =>
      handled (st_trace st) = [] ∧ nextCalls (st_trace st) = [tt] ∧
      last (st_trace st) = Some EvNext
  | Ret =>
      nextCalls (st_trace st) = [] ∧
      ∃ text, handled (st_trace st) = [text] ∧
        last (st_trace st) = Some (EvHandleError text)
  | Exc _ =>
      handled (st_trace st) = [] ∧ nextCalls (st_trace st) = []
  end.
Proof.
  intros st. subst st.
  destruct (run_shape req)
    as [(pre & text & -> & Hq & _ & Htr)|[(e & -> & Hq & _)
       |(pre & v & tail & Hq & _ & Htr & Hh & _ & _ & _ & Hr)]].
  - destruct Hq as (Hh & _ & _ & _ & _ & _ & Hnx).
    rewrite Htr. autorewrite with trace_proj. simpl. rewrite Hh, Hnx.
    split; [done|]. exists text. split; [done|]. apply last_snoc.
  - by destruct Hq as (Hh & _ & _ & _ & _ & _ & Hnx).
  - destruct Hq as (Hh' & _ & _ & _ & _ & _ & Hnx).
    rewrite Htr. autorewrite with trace_proj. simpl. rewrite Hh, Hh', Hnx. simpl.
    destruct (buildEndpointOption req).1 as [[]| |e]; [|done|].
    + destruct Hr as (-> & Hl & _). split; [done|]. split; [done|].
      rewrite last_app. simpl.
      destruct tail as [|ev tail]; [done|].
      rewrite !last_cons_cons. by rewrite Hl.
    + by destruct Hr as (-> & _).
Qed.

(** X13. The model catalog is fetched exactly when [endpointOption] has
    been assigned: never for a request that is turned down or whose
    builder fails, once otherwise, right after the assignment, for the
    request that carries the assigned value; its promise is the only
    one awaited. *)
Theorem models_fetched_iff_option_assigned req :
  let st := (buildEndpointOption req).2 in
  (assignments (st_trace st) = [] ∧ modelsCalls (st_trace st) = [] ∧
   awaits (st_trace st) = [])
  ∨ (∃ v, assignments (st_trace st) = [v] ∧
       modelsCalls (st_trace st) = [withOption req v] ∧
       awaits (st_trace st) = [getModelsConfig (withOption req v)] ∧
       ∃ pre tail, st_trace st
         = pre ++ EvSetEndpointOption v :: EvGetModelsConfig (withOption req v) :: tail).
Proof.
  intros st. subst st.
  destruct (run_shape req)
    as [(pre & text & _ & Hq & _ & Htr)|[(e & _ & Hq & _)
       |(pre & v & tail & Hq & _ & Htr & _ & Ha & Hm & Haw & _)]].
  - left. destruct Hq as (_ & Ha & _ & Hm & Haw & _).
    rewrite Htr. autorewrite with trace_proj. simpl. by rewrite Ha, Hm, Haw.
  - left. by destruct Hq as (_ & Ha & _ & Hm & Haw & _).
  - right. exists v. destruct Hq as (_ & Ha' & _ & Hm' & Haw' & _).
    rewrite Htr. autorewrite with trace_proj. simpl.
    rewrite Ha, Ha', Hm, Hm', Haw, Haw'. repeat split; try done. eauto.
Qed.

(** X14. When the identifier is not a key of the table but names a
    member of [Object.prototype], that member is what gets called, with
    the builder's arguments, and what it returns is stored as
    [endpointOption]; no builder runs and nothing is reported. *)
Theorem inherited_member_result_becomes_option req c k f v :
  normalized req c →
  ToPropertyKey (dispatchIdentifier (body req)) = Normal k →
  buildFunction !! k = None →
  objectPrototype k = Some f →
  f (builderArgs req c) = Normal v →
  let st := (buildEndpointOption req).2 in
  builderCalls (st_trace st) = [] ∧
  inheritedCalls (st_trace st) = [k] ∧
  assignments (st_trace st) = [v] ∧
  handled (st_trace st) = [].
Proof.
  intros [s Hn] Hk Hb Hp Hf st. subst st.
  rewrite (pipeline_val _ _ _ Hn).
  apply normalize_val_inv in Hn
    as (Hbody & evs & Htr & Hbc & Hic & Hh & Ha & _).
  simpl in Hbody, Htr.
  rewrite (dispatch_inherited _ _ _ k f) by (by rewrite ?Hbody).
  rewrite Hbody.
  replace {| body := body req; modelSpecs := modelSpecs req |} with req
    by (by destruct req).
  rewrite Hf.
  match goal with
  | |- context [enrich ?ms ?s0] =>
      destruct (enrich ms s0) as [re se] eqn:He;
      destruct (enrich_frame _ _ _ _ He)
        as (_ & evs' & Htr' & Hh' & _ & Hbc' & Hic' & Ha' & _)
  end.
  simpl in *. rewrite Htr', Htr. autorewrite with trace_proj. simpl.
  by rewrite Hbc, Hbc', Hic, Hic', Hh, Hh', Ha, Ha'.
Qed.

(** ** Enforcement cannot be bypassed *)

(** The conversation of every builder call is the one normalization
    ended with. *)
Lemma builder_calls_carry_normalized req c s fn args :
  normalize (modelSpecs req) (initial req) = (Val c, s) →
  (fn, args) ∈ builderCalls (st_trace (buildEndpointOption req).2) →
  args = builderArgs req c.
Proof.
  intros Hn Hin.
  assert (Hnorm : normalized req c) by (by eexists).
  destruct (ToPropertyKey (dispatchIdentifier (body req))) as [k|e] eqn:Hk.
  - destruct (buildFunction !! k) as [fn'|] eqn:Hb.
    + destruct (builder_called req c k fn' Hnorm Hk Hb) as (Hbc & _).
      rewrite Hbc in Hin. apply list_elem_of_singleton in Hin. by injection Hin.
    + exfalso. revert Hin. rewrite (pipeline_val _ _ _ Hn).
      apply normalize_val_inv in Hn as (Hbody & evs & Htr & Hbc & _).
      simpl in Hbody, Htr.
      destruct (dispatch _ c s) as [rd sd] eqn:Hd.
      assert (Hsd : builderCalls (st_trace sd) = []).
      { destruct (objectPrototype k) as [f|] eqn:Hp.
        - rewrite (dispatch_inherited _ _ _ k f) in Hd by (by rewrite ?Hbody).
          destruct (f _); injection Hd as <- <-; simpl;
            rewrite Htr; autorewrite with trace_proj; by rewrite Hbc.
        - destruct (dispatch_undefined (modelSpecs req) c s k) as [msg Hu];
            [by rewrite Hbody| |].
          { unfold lookupBuildFunction. by rewrite Hb, Hp. }
          rewrite Hu in Hd. injection Hd as <- <-. by rewrite Htr. }
      destruct rd as [[]| |e]; simpl; rewrite ?Hsd; try (by intros ?%elem_of_nil).
      destruct (enrich _ sd) as [re se] eqn:He.
      destruct (enrich_frame _ _ _ _ He) as (_ & evs' & Htr' & _ & _ & Hbc' & _).
      simpl. rewrite Htr'. autorewrite with trace_proj. rewrite Hsd, Hbc'.
      by intros ?%elem_of_nil.
  - exfalso. revert Hin. rewrite (pipeline_val _ _ _ Hn).
    apply normalize_val_inv in Hn as (Hbody & evs & Htr & Hbc & _).
    simpl in Hbody, Htr.
    rewrite (dispatch_key_throw _ _ _ e) by (by rewrite Hbody).
    simpl. rewrite Htr, Hbc. by intros ?%elem_of_nil.
Qed.

(** X19. Under enforcement no builder ever runs on the client's own
    conversation: whenever a builder is called, the request selected an
    entry of the catalog whose preset has the request's [endpoint] and
    passes the tools rule, and the conversation the builder receives is
    the parser's output for that preset. *)
Theorem enforcement_is_never_bypassed req l fn args :
  enforcing (modelSpecs req) = Some l →
  (fn, args) ∈ builderCalls (st_trace (buildEndpointOption req).2) →
  ∃ cs c,
    cs ∈ l ∧ selects req cs ∧
    strict_eq (get (body req) "endpoint") (get (preset cs) "endpoint") = true ∧
    toolsViolation cs = false ∧
    parseCompactConvo (presetArgs (body req) cs) = Normal c ∧
    args = builderArgs req c.
Proof.
  intros He Hin.
  destruct (normalize (modelSpecs req) (initial req)) as [[c| |e] s] eqn:Hn.
  - pose proof (builder_calls_carry_normalized _ _ _ _ _ Hn Hin) as Hargs.
    apply normalize_val_inv in Hn as (_ & evs & _ & _ & _ & _ & _ & _ & _ & _ & Hev).
    destruct Hev as [(He' & _)|(l' & c0 & cs & He' & Hp & Hs & Hf & Hm & Ht & Hp' & _)];
      rewrite He in He'; [discriminate|injection He' as <-].
    exists cs, c. simpl in *.
    split.
    { unfold findSpec in Hf. apply find_some in Hf as [Hin' _].
      by apply list_elem_of_In. }
    split; [by exists l, c0|].
    split; [unfold endpointMismatch in Hm; by apply negb_false_iff in Hm|].
    by repeat split.
  - exfalso. rewrite (pipeline_ret _ _ Hn) in Hin. simpl in Hin.
    destruct (normalize_cases (modelSpecs req) (initial req))
      as [(? & _ & Hn')|[(? & _ & _ & Hn')|[(? & ? & ? & _ & _ & _ & Hn')
         |(? & ? & ? & _ & _ & _ & _ & _ & _ & [(? & _ & Hn')|(? & _ & Hn')])]]];
      simpl in Hn'; rewrite Hn' in Hn; try discriminate;
      injection Hn as <-; simpl in Hin; by apply elem_of_nil in Hin.
  - exfalso.
    destruct (normalize_cases (modelSpecs req) (initial req))
      as [(? & _ & Hn')|[(? & _ & _ & Hn')|[(? & ? & ? & _ & _ & _ & Hn')
         |(? & ? & ? & _ & _ & _ & _ & _ & _ & [(? & _ & Hn')|(? & _ & Hn')])]]];
      simpl in Hn'; rewrite Hn' in Hn; discriminate.
Qed.

End MoreProperties.

(** * The SearXNG service *)

Section SearXNGProperties.

Import SearXNG.

Lemma validateEach_ok env vars :
  validateEach env vars = Ok tt ↔ ∀ v, v ∈ vars → unset env v = false.
Proof.
  induction vars as [|v vars IH]; simpl.
  - split; [|done]. intros _ v Hv. by apply elem_of_nil in Hv.
  - destruct (unset env v) eqn:Hu.
    + split; [discriminate|]. intros Hall.
      rewrite Hall in Hu; [discriminate|by left].
    + rewrite IH. split.
      * intros Hall u Hu'. apply elem_of_cons in Hu' as [->|Hu']; [done|by apply Hall].
      * intros Hall u Hu'. apply Hall. by right.
Qed.

(** X15. The environment check passes exactly when every required
    variable is set to a non-empty string (an empty value counts as not
    set); when it fails, the error names the first required variable
    that is not set. *)
Theorem validation_names_first_unset env vars :
  (validateEach env vars = Ok tt ↔ ∀ v, v ∈ vars → unset env v = false) ∧
  (∀ v, unset env v = true ↔ env !! v = None ∨ env !! v = Some "") ∧
  (∀ pre v post,
     vars = pre ++ v :: post →
     (∀ u, u ∈ pre → unset env u = false) →
     unset env v = true →
     validateEach env vars = Fails (Error (notSetMessage v))) ∧
  (∀ f, validateEach env vars = Fails f →
     ∃ v, v ∈ vars ∧ unset env v = true ∧ f = Error (notSetMessage v)).
Proof.
  split; [apply validateEach_ok|]. split.
  { intros v. unfold unset. destruct (env !! v) as [x|]; [|by split; eauto].
    rewrite String.eqb_eq. split; [intros ->; eauto|by intros [|[= ->]]]. }
  split.
  - intros pre v post -> Hpre Hv.
    induction pre as [|u pre IH]; simpl; [by rewrite Hv|].
    rewrite Hpre by (by left). apply IH. intros u' Hu'. apply Hpre. by right.
  - induction vars as [|v vars IH]; simpl; [discriminate|].
    intros f. destruct (unset env v) eqn:Hu.
    + intros [= <-]. exists v. split; [by left|done].
    + intros Hf. destruct (IH f Hf) as (u & Hin & Hu' & ->).
      exists u. split; [by right|done].
Qed.

(** X16. An environment that passes [validateEnvironmentVariables]
    lets the service be constructed, with the configured URL as its
    [baseURL]; an environment that does not pass makes both throw, each
    with its own message. *)
Theorem validated_environment_constructs_service env :
  (validateEnvironmentVariables env = Ok tt →
     ∃ url, env !! "SEARXNG_QUERY_URL" = Some url ∧ url ≠ "" ∧
       constructor env = Ok {| baseURL := url |}) ∧
  (validateEnvironmentVariables env ≠ Ok tt →
     validateEnvironmentVariables env
     = Fails (Error "Required environment variable SEARXNG_QUERY_URL is not set") ∧
     constructor env
     = Fails (Error "SEARXNG_QUERY_URL environment variable is not set")).
Proof.
  unfold validateEnvironmentVariables, requiredVars, constructor. simpl.
  unfold unset.
  destruct (env !! "SEARXNG_QUERY_URL") as [v|] eqn:Hv; simpl.
  - destruct (String.eqb v "") eqn:He; simpl.
    + split; [discriminate|done].
    + split; [|done]. intros _. exists v. split; [done|]. split; [|done].
      by apply String.eqb_neq.
  - split; [discriminate|done].
Qed.

Lemma processOne_readable result :
  readable result → processOne result = Ok (reshaped result).
Proof. intros [Hu Hn]. by destruct result. Qed.

Lemma mapResults_readable items :
  Forall readable items → mapResults items = Ok (reshaped <$> items).
Proof.
  induction 1 as [|result items Hr _ IH]; simpl; [done|].
  by rewrite processOne_readable, IH.
Qed.

Lemma mapResults_ok_inv items out :
  mapResults items = Ok out → Forall readable items.
Proof.
  revert out. induction items as [|result items IH]; intros out; simpl; [done|].
  destruct (processOne result) as [o|f] eqn:Ho; [|discriminate].
  destruct (mapResults items) as [os|f] eqn:Hos; [|discriminate].
  intros _. constructor; [|by eapply IH].
  destruct result; simpl in Ho; try discriminate; by split.
Qed.

(** X17. On an array of results none of which is [undefined] or [null],
    [processResults] returns an array of the same length and order; each
    entry is an object with exactly the properties [title], [link] and
    [snippet], holding the [title], [url] and [content] of the
    corresponding result ([undefined] where the result has none);
    every other property of a result is dropped. *)
Theorem processResults_reshapes_each_result items :
  Forall readable items →
  ∃ out, processResults (JArr items) = Ok (JArr out) ∧
    length out = length items ∧
    ∀ i result, items !! i = Some result →
      ∃ o, out !! i = Some (JObj o) ∧
        dom o = {[ "title"; "link"; "snippet" ]} ∧
        o !! "title" = Some (fieldOf result "title") ∧
        o !! "link" = Some (fieldOf result "url") ∧
        o !! "snippet" = Some (fieldOf result "content").
Proof.
  intros Hall. exists (reshaped <$> items). split.
  { simpl. by rewrite mapResults_readable. }
  split; [by rewrite length_fmap|].
  intros i result Hi. eexists. split.
  { rewrite list_lookup_fmap, Hi. reflexivity. }
  split; [|by simplify_map_eq].
  rewrite !dom_insert_L, dom_empty_L. set_solver.
Qed.

(** X18. [processResults] returns normally exactly when it is given an
    array none of whose elements is [undefined] or [null]; on anything
    else (a missing [results], a string, an object, an array with a
    hole filled by [null]) it throws a [TypeError]. *)
Theorem processResults_succeeds_iff results :
  ((∃ out, processResults results = Ok out)
   ↔ ∃ items, results = JArr items ∧ Forall readable items) ∧
  (∀ f, processResults results = Fails f → ∃ msg, f = TypeErr msg).
Proof.
  split; [split|].
  - intros [out Hout]. destruct results; simpl in Hout; try discriminate.
    exists items. split; [done|].
    destruct (mapResults items) as [os|f] eqn:Hos; [|discriminate].
    by eapply mapResults_ok_inv.
  - intros (items & -> & Hall). simpl. rewrite mapResults_readable by done. eauto.
  - intros f. destruct results; simpl; try (intros [= <-]; eauto).
    assert (Hmap : ∀ l f', mapResults l = Fails f' → ∃ msg, f' = TypeErr msg).
    { induction l as [|r l IH]; intros f'; simpl; [discriminate|].
      destruct (processOne r) as [o|g] eqn:Ho.
      - destruct (mapResults l) as [os|g]; [discriminate|].
        intros [= <-]. by apply IH.
      - intros [= <-]. destruct r; simpl in Ho; try discriminate;
          injection Ho as <-; eauto. }
    destruct (mapResults items) as [os|g] eqn:Hos; [discriminate|].
    intros [= <-]. by eapply Hmap.
Qed.

End SearXNGProperties.

(** * The further properties on the sample deployment *)

Section MoreExamples.

Import Sample MoreSamples.

Lemma body_fields_preserved_example :
  get (st_body (run reqOneFile).2) "files" = get (body reqOneFile) "files" ∧
  get (st_body (run reqOneFile).2) "endpoint" = JStr "openAI".
Proof.
  split.
  - apply (@body_fields_preserved deps reqOneFile "files"). discriminate.
  - unfold run.
    rewrite (@body_fields_preserved deps reqOneFile "endpoint") by discriminate.
    vm_compute. reflexivity.
Defined.

Lemma missing_spec_rejected_example :
  get (body reqNoSpec) "spec" = JUndefined ∧
  handled (st_trace (run reqNoSpec).2) = ["No model spec selected"].
Proof.
  split; [vm_compute; reflexivity|]. unfold run.
  rewrite (@missing_spec_rejected deps reqNoSpec [specS; specT; specBad]
             (body reqNoSpec)); [reflexivity| | |]; vm_compute; reflexivity.
Defined.

Lemma unknown_spec_rejected_example :
  handled (st_trace (run reqUnknownSpec).2) = ["Invalid model spec"] ∧
  builderCalls (st_trace (run reqUnknownSpec).2) = [].
Proof.
  unfold run.
  rewrite (@unknown_spec_rejected deps reqUnknownSpec [specS; specT; specBad]
             (body reqUnknownSpec)); [split; reflexivity| | | |];
    try (vm_compute; reflexivity).
  intros s Hs. rewrite !elem_of_cons, elem_of_nil in Hs.
  destruct Hs as [->|[->|[->|[]]]]; vm_compute; discriminate.
Defined.

Lemma non_string_spec_rejected_example :
  get (body reqNumericSpec) "spec" = JNum 1 ∧
  name specOne = "1" ∧
  handled (st_trace (run reqNumericSpec).2) = ["Invalid model spec"].
Proof.
  split; [vm_compute; reflexivity|]. split; [reflexivity|].
  assert (Hns : ∀ n, get (body reqNumericSpec) "spec" ≠ JStr n).
  { intros n Hn. vm_compute in Hn. discriminate Hn. }
  destruct (@non_string_spec_rejected deps reqNumericSpec [specOne]
              (body reqNumericSpec) eq_refl eq_refl eq_refl Hns) as (_ & _ & Hh).
  exact Hh.
Defined.

Lemma empty_catalog_rejects_every_request_example :
  (run reqEmptyCatalog).1 = Ret ∧
  builderCalls (st_trace (run reqEmptyCatalog).2) = [].
Proof.
  destruct (@empty_catalog_rejects_every_request deps reqEmptyCatalog
              {| list_ := Some []; enforce := JBool true |})
    as (Hr & _ & Hb & _); try reflexivity.
  split; [exact Hr|exact Hb].
Defined.

Lemma first_matching_spec_wins_example :
  name specS = name specS2 ∧
  @selects deps reqDuplicates specS.
Proof.
  split; [reflexivity|].
  destruct (@first_matching_spec_wins deps reqDuplicates [specT] specS [specS2]
              (body reqDuplicates)) as (Hsel & _);
    try (vm_compute; reflexivity); [discriminate| |exact Hsel].
  intros s' Hs'. rewrite elem_of_cons, elem_of_nil in Hs'.
  destruct Hs' as [->|[]]. discriminate.
Defined.

Lemma gptPlugins_preset_may_declare_tools_example :
  truthy (get (preset specPlugins) "tools") = true ∧
  @normalized deps reqPlugins (preset specPlugins).
Proof.
  split; [vm_compute; reflexivity|].
  destruct (@gptPlugins_preset_may_declare_tools deps reqPlugins specPlugins
              (preset specPlugins)) as (_ & Hn & _);
    try (vm_compute; reflexivity); [|exact Hn].
  exists [specPlugins], (body reqPlugins).
  repeat split; vm_compute; reflexivity.
Defined.

Lemma builder_exception_escapes_example :
  ∃ st, run reqAgentsType
        = (Exc (TypeError "Cannot read properties of undefined"), st) ∧
    st_body st = body reqAgentsType ∧
    assignments (st_trace st) = [].
Proof.
  assert (Hn : @normalized deps reqAgentsType (body reqAgentsType)).
  { exists (@normalize deps (modelSpecs reqAgentsType) (initial reqAgentsType)).2.
    vm_compute. reflexivity. }
  destruct (@builder_exception_escapes deps reqAgentsType (body reqAgentsType)
              "agents" agents_buildOptions
              (TypeError "Cannot read properties of undefined") Hn)
    as (st & Hrun & Hb & _ & _ & Ha & _); try (vm_compute; reflexivity).
  exists st. split; [exact Hrun|]. split; [exact Hb|exact Ha].
Defined.

Lemma models_rejection_leaves_option_assigned_example :
  ∃ st, @buildEndpointOption depsRejecting reqPlain
        = (Exc (Thrown (JStr "models unavailable")), st) ∧
    get (st_body st) "endpointOption"
    = JObj {[ "modelOptions" := JObj (body reqPlain) ]} ∧
    nextCalls (st_trace st) = [].
Proof.
  assert (Hn : @normalized depsRejecting reqPlain (body reqPlain)).
  { exists (@normalize depsRejecting (modelSpecs reqPlain) (initial reqPlain)).2.
    vm_compute. reflexivity. }
  destruct (@models_rejection_leaves_option_assigned depsRejecting reqPlain
              (body reqPlain) "openAI" openAI_buildOptions
              {[ "modelOptions" := JObj (body reqPlain) ]}
              (Thrown (JStr "models unavailable")) Hn)
    as (st & Hrun & Hb & _ & _ & _ & _ & Hnx); try (vm_compute; reflexivity).
  exists st. split; [exact Hrun|]. split; [|exact Hnx].
  rewrite Hb. apply get_insert_eq.
Defined.

Lemma modelsConfig_added_builder_fields_kept_example :
  ∃ o, get (st_body (run reqOneFile).2) "endpointOption" = JObj o ∧
    o !! "modelsConfig" = Some (JObj {[ "openAI" := JArr [JStr "gpt-4o"] ]}) ∧
    o !! "modelOptions" = Some (JObj (body reqOneFile)).
Proof.
  assert (Hrun : run reqOneFile = (Val tt, (run reqOneFile).2)).
  { vm_compute. reflexivity. }
  destruct (@modelsConfig_added_builder_fields_kept deps reqOneFile "openAI"
              openAI_buildOptions _ Hrun)
    as (c & opts & mc & o & [s Hn] & Hbuild & Hset & _ & Ho & Hmc & Hkeep);
    try (vm_compute; reflexivity).
  exists o. split; [exact Ho|].
  assert (Hmc' : mc = JObj {[ "openAI" := JArr [JStr "gpt-4o"] ]}).
  { simpl in Hset. by injection Hset as <-. }
  split; [by rewrite Hmc, Hmc'|].
  rewrite Hkeep by discriminate.
  assert (Hc : c = body reqOneFile).
  { assert (Hv : @normalize deps (modelSpecs reqOneFile) (initial reqOneFile)
               = (Val (body reqOneFile),
                  (@normalize deps (modelSpecs reqOneFile) (initial reqOneFile)).2))
      by (vm_compute; reflexivity).
    rewrite Hv in Hn. by injection Hn as <-. }
  subst c.
  assert (Hopts : opts = {[ "modelOptions" := JObj (body reqOneFile) ]}).
  { assert (Hb : @buildOptions deps openAI_buildOptions
                   (@builderArgs deps reqOneFile (body reqOneFile))
                 = Normal {[ "modelOptions" := JObj (body reqOneFile) ]})
      by (vm_compute; reflexivity).
    rewrite Hb in Hbuild. by injection Hbuild as <-. }
  rewrite Hopts. apply lookup_singleton_eq.
Defined.

Lemma processFiles_only_on_completed_runs_example :
  fileCalls (st_trace (run reqOneFile).2) ≠ [] ∧
  (run reqOneFile).1 = Val tt ∧
  nextCalls (st_trace (run reqOneFile).2) = [tt].
Proof.
  assert (Hfc : fileCalls (st_trace (@buildEndpointOption deps reqOneFile).2) ≠ []).
  { vm_compute. discriminate. }
  destruct (@processFiles_only_on_completed_runs deps reqOneFile Hfc)
    as (Hr & _ & _ & Hnx).
  split; [exact Hfc|]. split; [exact Hr|exact Hnx].
Defined.

Lemma inherited_member_result_becomes_option_example :
  @buildFunction deps !! "constructor" = None ∧
  inheritedCalls (st_trace (run reqConstructor).2) = ["constructor"] ∧
  assignments (st_trace (run reqConstructor).2) = [JObj ∅].
Proof.
  assert (Hn : @normalized deps reqConstructor (body reqConstructor)).
  { exists (@normalize deps (modelSpecs reqConstructor) (initial reqConstructor)).2.
    vm_compute. reflexivity. }
  assert (Hb : @buildFunction deps !! "constructor" = None)
    by (vm_compute; reflexivity).
  destruct (@inherited_member_result_becomes_option deps reqConstructor
              (body reqConstructor) "constructor" (fun _ => Normal (JObj ∅))
              (JObj ∅) Hn eq_refl Hb eq_refl eq_refl)
    as (_ & Hic & Ha & _).
  split; [exact Hb|]. split; [exact Hic|exact Ha].
Defined.

Lemma processResults_reshapes_each_result_example :
  Forall SearXNG.readable SearXNG.samplePage ∧
  ∃ out o0 o1,
    SearXNG.processResults (JArr SearXNG.samplePage) = SearXNG.Ok (JArr out) ∧
    length out = 3 ∧
    out !! 0 = Some (JObj o0) ∧ o0 !! "title" = Some (JStr "Rocq") ∧
    o0 !! "engine" = None ∧
    out !! 1 = Some (JObj o1) ∧ o1 !! "link" = Some (JStr "https://example.org") ∧
    o1 !! "snippet" = Some JUndefined.
Proof.
  assert (Hall : Forall SearXNG.readable SearXNG.samplePage).
  { unfold SearXNG.samplePage. repeat constructor; discriminate. }
  split; [exact Hall|].
  destruct (processResults_reshapes_each_result SearXNG.samplePage Hall)
    as (out & Hout & Hlen & Hent).
  destruct (Hent 0 _ eq_refl) as (o0 & Ho0 & Hdom0 & Ht0 & _ & _).
  destruct (Hent 1 _ eq_refl) as (o1 & Ho1 & _ & _ & Hl1 & Hs1).
  exists out, o0, o1.
  split; [exact Hout|]. split; [exact Hlen|].
  split; [exact Ho0|]. split; [exact Ht0|]. split.
  { apply not_elem_of_dom. rewrite Hdom0. intros Hin.
    rewrite !elem_of_union, !elem_of_singleton in Hin. intuition discriminate. }
  split; [exact Ho1|]. split; [exact Hl1|exact Hs1].
Defined.

Lemma enforcement_is_never_bypassed_example :
  (openAI_buildOptions,
   [AVal (JStr "openAI"); AConvo (preset specS); AVal JUndefined])
    ∈ builderCalls (st_trace (run reqEnforced).2) ∧
  ∃ cs, cs ∈ [specS; specT; specBad] ∧ @selects deps reqEnforced cs.
Proof.
  assert (Hin : (openAI_buildOptions,
                 [AVal (JStr "openAI"); AConvo (preset specS); AVal JUndefined])
                ∈ builderCalls (st_trace (@buildEndpointOption deps reqEnforced).2)).
  { assert (Hc : builderCalls (st_trace (@buildEndpointOption deps reqEnforced).2)
               = [(openAI_buildOptions,
                   [AVal (JStr "openAI"); AConvo (preset specS); AVal JUndefined])])
      by (vm_compute; reflexivity).
    rewrite Hc. apply list_elem_of_here. }
  split; [exact Hin|].
  destruct (@enforcement_is_never_bypassed deps reqEnforced [specS; specT; specBad]
              _ _ eq_refl Hin) as (cs & c & Hcs & Hsel & _).
  exists cs. split; [exact Hcs|exact Hsel].
Defined.

End MoreExamples.
